(** * ai_proxy_service: the messaging backend of [main.py]

    A shallow embedding of the FastAPI application of [main.py] and of the
    three PostgreSQL tables it creates, followed by the properties of the
    addressing, retrieval and token rules.

    Conventions of the model.
    - A table with a primary key is a finite map from the key to the rest of
      the row ([users], [tokens]); the [messages] table is the list of its
      rows in insertion order together with the state of the SERIAL
      sequence.
    - A Python [str] is the sequence of the bytes of its UTF-8 encoding
      ([string]); a [str] that UTF-8 cannot encode is outside the model.
    - Python integers are mathematical integers ([Z]); a value bound to an
      INTEGER or BIGINT parameter must lie in the range of that type, and a
      value bound to a TEXT parameter must not hold U+0000, otherwise the
      statement raises and nothing is stored.  A [TIMESTAMPTZ] or an aware
      [datetime] is its number of microseconds since the epoch.
    - A handler is a function of the database, of the values it reads from
      its environment (the clock, [secrets.token_hex]) and of its already
      validated arguments; it returns what the Python function returns or
      the exception it raises.  Request validation by FastAPI is outside
      the model; of the response, the model keeps the validation against
      [response_model], which refuses a row whose [from_is_human] is
      NULL. *)

From Stdlib Require Import ZArith String Ascii List Lia.
From stdpp Require Import gmap strings list sorting.

Local Open Scope Z_scope.

(** ** Python helpers *)

(** Truthiness of a [str]: only the empty string is falsy. *)
Definition str_truthy (s : string) : bool :=
  match s with EmptyString => false | String _ _ => true end.

(** Truthiness of an [Optional[str]]: [None] and the empty string are falsy. *)
Definition truthy (o : option string) : bool :=
  match o with None => false | Some s => str_truthy s end.

(** [s.startswith(p)] *)
Fixpoint startswith (p s : string) : bool :=
  match p with
  | EmptyString => true
  | String a p' =>
      match s with
      | EmptyString => false
      | String b s' => if Ascii.eqb a b then startswith p' s' else false
      end
  end.

(** [s[n:]] for a non-negative [n] *)
Fixpoint slice_from (n : nat) (s : string) : string :=
  match n with
  | O => s
  | S n' => match s with EmptyString => EmptyString | String _ s' => slice_from n' s' end
  end.

(** [timedelta(days=1)], in microseconds *)
Definition timedelta_days_1 : Z := 86400 * 1000000.

(** ** Values the store accepts *)

(** U+0000, the one character a TEXT value cannot hold. *)
Definition NUL : ascii := Ascii.zero.

Fixpoint has_nul (s : string) : bool :=
  match s with
  | EmptyString => false
  | String c s' => Ascii.eqb c NUL || has_nul s'
  end.

(** The range of INTEGER: message identifiers, cursors, reply references. *)
Definition int4 (z : Z) : bool := (-2147483648 <=? z) && (z <=? 2147483647).

(** The range of BIGINT: the row count of LIMIT. *)
Definition int8 (z : Z) : bool :=
  (-9223372036854775808 <=? z) && (z <=? 9223372036854775807).

(** The newline character, as a string. *)
Definition LF : string := String (Ascii.ascii_of_nat 10) EmptyString.

(** ** Results of a handler *)

(** What a call produces: a returned value, an [HTTPException] raised by the
    code, or any other exception (raised by the database driver), which the
    server turns into a 500 answer. *)
Inductive outcome (A : Type) : Type :=
| Return (a : A)
| HTTPException (status_code : Z) (detail : string)
| ServerError (e : string).
Arguments Return {A} a.
Arguments HTTPException {A} status_code detail.
Arguments ServerError {A} e.

(** ** Models (pydantic) *)

Record AuthRequest := { codeword : string }.

Record AuthResponse := { token : string; expires : Z }.

Record MessageIn := {
  in_reply_to_message_id : option Z;
  in_message : string
}.

(** A row of the SELECT of the three read handlers, as [dict(row)]. *)
Record MessageOut := {
  out_message_id : Z;
  out_reply_to_message_id : option Z;
  out_from_username : string;
  out_from_is_human : option bool;
  out_reply_to_username : option string;
  out_message : string;
  out_datetime : Z
}.

(** ** Tables *)

(** [users (username TEXT PRIMARY KEY, codeword TEXT NOT NULL,
            is_human BOOLEAN DEFAULT TRUE)] *)
Record user_row := {
  user_codeword : string;
  user_is_human : option bool
}.

(** [tokens (token TEXT PRIMARY KEY, username TEXT REFERENCES users,
             expires TIMESTAMPTZ NOT NULL)] *)
Record token_row := {
  token_username : string;
  token_expires : Z
}.

(** [messages (message_id SERIAL PRIMARY KEY, reply_to_message_id INTEGER,
               from_username TEXT NOT NULL REFERENCES users,
               reply_to_username TEXT, message TEXT NOT NULL,
               datetime TIMESTAMPTZ NOT NULL)] *)
Record message_row := {
  message_id : Z;
  reply_to_message_id : option Z;
  from_username : string;
  reply_to_username : option string;
  message : string;
  datetime : Z
}.

Record database := {
  users : gmap string user_row;
  tokens : gmap string token_row;
  messages : list message_row;
  messages_message_id_seq : Z   (* last value handed out by the sequence *)
}.

Definition empty_database : database :=
  {| users := ∅; tokens := ∅; messages := []; messages_message_id_seq := 0 |}.

Definition set_users (f : gmap string user_row → gmap string user_row)
    (db : database) : database :=
  {| users := f (users db); tokens := tokens db; messages := messages db;
     messages_message_id_seq := messages_message_id_seq db |}.

Definition set_tokens (f : gmap string token_row → gmap string token_row)
    (db : database) : database :=
  {| users := users db; tokens := f (tokens db); messages := messages db;
     messages_message_id_seq := messages_message_id_seq db |}.

(** ** Auth dependency *)

Definition Bearer : string := "Bearer ".

(** [verify_token]: [now] is the value of [datetime.now(timezone.utc)] read
    by the comparison. *)
Definition verify_token (db : database) (now : Z)
    (authorization : option string) : outcome string :=
  match authorization with
  | None => HTTPException 401 "Missing or invalid Authorization header"
  | Some a =>
      if negb (str_truthy a) || negb (startswith Bearer a)
      then HTTPException 401 "Missing or invalid Authorization header"
      else
        match tokens db !! slice_from 7 a with
        | None => HTTPException 401 "Invalid or expired token"
        | Some row =>
            if token_expires row <? now
            then HTTPException 401 "Invalid or expired token"
            else Return (token_username row)
        end
  end.

(** ** Auth *)

(** [INSERT INTO tokens (token, username, expires) VALUES ($1, $2, $3)]:
    the primary key and the foreign key are checked by the store. *)
Definition insert_token (db : database) (tok username : string) (exp : Z)
    : outcome database :=
  match tokens db !! tok with
  | Some _ => ServerError "UniqueViolationError"
  | None =>
      match users db !! username with
      | None => ServerError "ForeignKeyViolationError"
      | Some _ =>
          Return (set_tokens
                    <[tok := {| token_username := username; token_expires := exp |}]> db)
      end
  end.

(** [authenticate]: [now] is the clock read, [token_hex] the string produced
    by [secrets.token_hex(16)] (hexadecimal digits).  The SELECT binds
    [username] as TEXT, so a username that holds U+0000 makes it raise. *)
Definition authenticate (db : database) (now : Z) (token_hex : string)
    (username : string) (req : AuthRequest) : outcome AuthResponse * database :=
  if has_nul username
  then (ServerError "CharacterNotInRepertoireError", db)
  else
    match users db !! username with
    | None => (HTTPException 403 "Invalid codeword", db)
    | Some user =>
        if negb (String.eqb (user_codeword user) (codeword req))
        then (HTTPException 403 "Invalid codeword", db)
        else
          let expires := now + timedelta_days_1 in
          match insert_token db token_hex username expires with
          | Return db' => (Return {| token := token_hex; expires := expires |}, db')
          | HTTPException c d => (HTTPException c d, db)
          | ServerError e => (ServerError e, db)
          end
    end.

(** ** Send message *)

Record StatusResponse := { status : string }.

Definition status_ok : StatusResponse := {| status := "ok" |}.

(** [INSERT INTO messages (...) VALUES (...)].  The statement raises, and
    leaves the database as it is, when [reply_to_message_id] is outside
    INTEGER (the driver cannot encode it), when a TEXT parameter holds
    U+0000, or when the sequence of [message_id] is exhausted.  Otherwise
    [message_id] takes the next value of the sequence, which stays consumed
    when the row is refused by the primary key or by the foreign key on
    [from_username]. *)
Definition insert_message (db : database) (from_user : string)
    (to_user : option string) (text : string) (now : Z)
    (reply_to : option Z) : outcome unit * database :=
  let id := messages_message_id_seq db + 1 in
  let row := {| message_id := id; reply_to_message_id := reply_to;
                from_username := from_user; reply_to_username := to_user;
                message := text; datetime := now |} in
  let refused := {| users := users db; tokens := tokens db;
                    messages := messages db;
                    messages_message_id_seq := id |} in
  if negb (from_option int4 true reply_to)
  then (ServerError "DataError", db)
  else if has_nul from_user || from_option has_nul false to_user || has_nul text
  then (ServerError "CharacterNotInRepertoireError", db)
  else if 2147483647 <? id
  then (ServerError "SequenceGeneratorLimitExceededError", db)
  else if bool_decide (id ∈ message_id <$> messages db)
  then (ServerError "UniqueViolationError", refused)
  else
    match users db !! from_user with
    | None => (ServerError "ForeignKeyViolationError", refused)
    | Some _ =>
        (Return (),
         {| users := users db; tokens := tokens db;
            messages := messages db ++ [row];
            messages_message_id_seq := id |})
    end.

Definition send_broadcast (db : database) (now : Z) (msg : MessageIn)
    (from_user : string) : outcome StatusResponse * database :=
  match insert_message db from_user None (in_message msg) now
          (in_reply_to_message_id msg) with
  | (Return _, db') => (Return status_ok, db')
  | (HTTPException c d, db') => (HTTPException c d, db')
  | (ServerError e, db') => (ServerError e, db')
  end.

Definition send_direct (db : database) (now : Z) (to_user : string)
    (msg : MessageIn) (from_user : string) : outcome StatusResponse * database :=
  match insert_message db from_user (Some to_user) (in_message msg) now
          (in_reply_to_message_id msg) with
  | (Return _, db') => (Return status_ok, db')
  | (HTTPException c d, db') => (HTTPException c d, db')
  | (ServerError e, db') => (ServerError e, db')
  end.

(** ** Receive messages *)

(** The seven selected columns: those of the message and [u.is_human AS
    from_is_human]. *)
Definition message_out (m : message_row) (is_human : option bool) : MessageOut :=
  {| out_message_id := message_id m;
     out_reply_to_message_id := reply_to_message_id m;
     out_from_username := from_username m;
     out_from_is_human := is_human;
     out_reply_to_username := reply_to_username m;
     out_message := message m;
     out_datetime := datetime m |}.

(** [FROM messages m JOIN users u ON u.username = m.from_username] *)
Definition join_users (db : database) (m : message_row) : list MessageOut :=
  match users db !! from_username m with
  | None => []
  | Some u => [message_out m (user_is_human u)]
  end.

(** [ORDER BY m.message_id ASC] *)
Definition by_message_id (r1 r2 : MessageOut) : Prop :=
  out_message_id r1 ≤ out_message_id r2.

Global Instance by_message_id_dec : RelDecision by_message_id.
Proof. intros r1 r2. unfold by_message_id. apply _. Defined.

Global Instance by_message_id_total : Total by_message_id.
Proof. intros r1 r2. unfold by_message_id. lia. Qed.

Global Instance by_message_id_trans : Transitive by_message_id.
Proof. intros r1 r2 r3. unfold by_message_id. lia. Qed.

(** [SELECT ... FROM messages m JOIN users u ... WHERE cond
     ORDER BY m.message_id ASC] *)
Definition select_messages (db : database) (cond : message_row → bool)
    : list MessageOut :=
  merge_sort by_message_id
    (flat_map (join_users db) (List.filter cond (messages db))).

(** [LIMIT n]: the row count is a BIGINT parameter, which the driver cannot
    encode outside that range, and PostgreSQL refuses a negative one. *)
Definition sql_limit {A} (n : Z) (rows : list A) : outcome (list A) :=
  if negb (int8 n) then ServerError "DataError"
  else if n <? 0 then ServerError "InvalidRowCountInLimitClauseError"
  else Return (take (Z.to_nat n) rows).

(** The SQL conditions of the handlers.  The cursor of [m.message_id > $1]
    is an INTEGER parameter: the handlers below raise before the query runs
    when it is outside that range. *)
Definition cond_message_id_gt (from_id : Z) (m : message_row) : bool :=
  bool_decide (from_id < message_id m).

Definition cond_from_username_eq (v : string) (m : message_row) : bool :=
  bool_decide (from_username m = v).

Definition cond_reply_to_username_eq (v : string) (m : message_row) : bool :=
  bool_decide (reply_to_username m = Some v).

Definition cond_reply_to_username_null_or_empty (m : message_row) : bool :=
  bool_decide (reply_to_username m = None)
  || bool_decide (reply_to_username m = Some EmptyString).

(** [" AND ".join(conditions)] *)
Definition conj_conditions (conditions : list (message_row → bool))
    (m : message_row) : bool :=
  forallb (λ c, c m) conditions.

(** The list [conditions] that [get_all_messages] builds. *)
Definition get_all_messages_conditions (from_id : Z)
    (from_user to_user : option string) : list (message_row → bool) :=
  [cond_message_id_gt from_id]
  ++ (if truthy from_user
      then [cond_from_username_eq (default EmptyString from_user)] else [])
  ++ (if truthy to_user
      then [cond_reply_to_username_eq (default EmptyString to_user)] else []).

(** The TEXT values of the list [params] that [get_all_messages] builds. *)
Definition get_all_messages_text_params (from_user to_user : option string)
    : list string :=
  (if truthy from_user then [default EmptyString from_user] else [])
  ++ (if truthy to_user then [default EmptyString to_user] else []).

(** [get_all_messages]: the driver first encodes [from_id] as INTEGER and
    [limit] as BIGINT, then the server takes the TEXT parameters, then the
    query runs. *)
Definition get_all_messages (db : database) (from_id : Z)
    (from_user to_user : option string) (limit : Z) (auth_user : string)
    : outcome (list MessageOut) :=
  if negb (int4 from_id && int8 limit)
  then ServerError "DataError"
  else if existsb has_nul (get_all_messages_text_params from_user to_user)
  then ServerError "CharacterNotInRepertoireError"
  else
    sql_limit limit
      (select_messages db
         (conj_conditions (get_all_messages_conditions from_id from_user to_user))).

(** The query of [get_broadcast]. *)
Definition query_broadcast (db : database) (from_id : Z) : list MessageOut :=
  select_messages db
    (λ m, cond_message_id_gt from_id m && cond_reply_to_username_null_or_empty m).

Definition get_broadcast (db : database) (from_id : Z) (username : string)
    : outcome (list MessageOut) :=
  if negb (int4 from_id) then ServerError "DataError"
  else Return (query_broadcast db from_id).

(** The query of [get_direct]. *)
Definition query_direct (db : database) (from_id : Z) (username : string)
    : list MessageOut :=
  select_messages db
    (λ m, cond_message_id_gt from_id m && cond_reply_to_username_eq username m).

Definition get_direct (db : database) (username : string) (from_id : Z)
    (auth_user : string) : outcome (list MessageOut) :=
  if bool_decide (username ≠ auth_user)
  then HTTPException 403 "Can only request your own messages"
  else if negb (int4 from_id) then ServerError "DataError"
  else if has_nul username then ServerError "CharacterNotInRepertoireError"
  else Return (query_direct db from_id username).

(** ** Startup: the users of the configuration *)

(** A value produced by [json.loads]. *)
#[local] Unset Elimination Schemes.
Inductive json : Type :=
| JNull
| JBool (b : bool)
| JNumber (n : Z)
| JString (s : string)
| JArray (items : list json)
| JObject (members : list (string * json)).
#[local] Set Elimination Schemes.

(** The exceptions the bootstrap loop can raise. *)
Inductive exception : Type :=
| JSONDecodeError
| KeyError (key : string)
| TypeError
| DataError              (* the driver refuses the Python value of a parameter *)
| CharacterNotInRepertoireError   (* the server refuses U+0000 in a TEXT value *)
| NotNullViolationError.

Global Instance raising_bind : MBind (sum exception) :=
  λ A B f m, match m with inl e => inl e | inr a => f a end.

(** The members of a [dict], looked up by key. *)
Fixpoint dict_get (members : list (string * json)) (key : string) : option json :=
  match members with
  | [] => None
  | (k, v) :: rest => if bool_decide (k = key) then Some v else dict_get rest key
  end.

(** [for entry in v]: a list gives its items, a dict its keys, a string its
    characters; nothing else is iterable. *)
Definition py_iter (v : json) : exception + list json :=
  match v with
  | JArray items => inr items
  | JObject members => inr ((λ kv, JString (fst kv)) <$> members)
  | JString s => inr ((λ c, JString (String c EmptyString)) <$> list_ascii_of_string s)
  | _ => inl TypeError
  end.

(** [entry[key]] for a string key *)
Definition py_getitem (entry : json) (key : string) : exception + json :=
  match entry with
  | JObject members =>
      match dict_get members key with
      | Some v => inr v
      | None => inl (KeyError key)
      end
  | _ => inl TypeError
  end.

(** [entry.get(key, dflt)], reached only after [entry[...]] succeeded *)
Definition py_get (entry : json) (key : string) (dflt : json) : exception + json :=
  match entry with
  | JObject members => inr (default dflt (dict_get members key))
  | _ => inl TypeError
  end.

(** A Python value passed for a TEXT parameter, as the driver encodes it: a
    [str], or [None] for NULL.  What the server then does with the value is
    [server_text]. *)
Definition text_param (v : json) : exception + option string :=
  match v with
  | JString s => inr (Some s)
  | JNull => inr None
  | _ => inl DataError
  end.

(** The server refuses a TEXT parameter that holds U+0000. *)
Definition server_text (v : option string) : exception + option string :=
  match v with
  | Some s => if has_nul s then inl CharacterNotInRepertoireError else inr (Some s)
  | None => inr None
  end.

(** A Python value passed for a BOOLEAN parameter. *)
Definition bool_param (v : json) : exception + option bool :=
  match v with
  | JBool b => inr (Some b)
  | JNull => inr None
  | _ => inl DataError
  end.

(** A NOT NULL column refuses NULL. *)
Definition not_null {A} (v : option A) : exception + A :=
  match v with
  | Some a => inr a
  | None => inl NotNullViolationError
  end.

(** [s != v] for a [str] [s] and a value [v] of any type *)
Definition str_ne (s : string) (v : json) : bool :=
  match v with
  | JString s' => negb (String.eqb s s')
  | _ => true
  end.

(** One iteration of the loop of [lifespan].

    For a stored user the code compares the stored codeword with the
    configured one and runs the UPDATE when they differ.  The checks the
    UPDATE makes on its parameter (a [str] or [None], no U+0000, not NULL)
    are written here before the comparison: a stored codeword is a string
    without U+0000, so a configured value that the UPDATE refuses always
    differs from it, and the UPDATE is reached and raises. *)
Definition bootstrap_entry (db : database) (entry : json) : exception + database :=
  username ← py_getitem entry "username";
  codeword ← py_getitem entry "codeword";
  is_human ← py_get entry "is_human" (JBool true);
  (* SELECT codeword FROM users WHERE username=$1 *)
  name ← text_param username;
  name ← server_text name;
  match name ≫= (λ n, (λ u, (n, u)) <$> users db !! n) with
  | Some (n, existing) =>
      (* if existing["codeword"] != codeword:
           UPDATE users SET codeword=$1 WHERE username=$2 *)
      c ← text_param codeword;
      c ← server_text c;
      c ← not_null c;
      if str_ne (user_codeword existing) codeword
      then inr (set_users <[n := {| user_codeword := c;
                                    user_is_human := user_is_human existing |}]> db)
      else inr db
  | None =>
      (* INSERT INTO users (username, codeword, is_human) VALUES ($1, $2, $3) *)
      c ← text_param codeword;
      h ← bool_param is_human;
      c ← server_text c;
      n ← not_null name;
      c ← not_null c;
      inr (set_users <[n := {| user_codeword := c; user_is_human := h |}]> db)
  end.

(** The same iteration with the statements in the order of the source: the
    comparison first, then the UPDATE with the checks on its parameter.
    [bootstrap_entry_source_order] shows that the two agree on every
    database whose stored codewords hold no U+0000, which is every database
    PostgreSQL can hold. *)
Definition bootstrap_entry_in_source_order (db : database) (entry : json)
    : exception + database :=
  username ← py_getitem entry "username";
  codeword ← py_getitem entry "codeword";
  is_human ← py_get entry "is_human" (JBool true);
  name ← text_param username;
  name ← server_text name;
  match name ≫= (λ n, (λ u, (n, u)) <$> users db !! n) with
  | Some (n, existing) =>
      if str_ne (user_codeword existing) codeword
      then
        c ← text_param codeword;
        c ← server_text c;
        c ← not_null c;
        inr (set_users <[n := {| user_codeword := c;
                                 user_is_human := user_is_human existing |}]> db)
      else inr db
  | None =>
      c ← text_param codeword;
      h ← bool_param is_human;
      c ← server_text c;
      n ← not_null name;
      c ← not_null c;
      inr (set_users <[n := {| user_codeword := c; user_is_human := h |}]> db)
  end.

(** [for entry in parsed_users: ...]: the first exception leaves the loop. *)
Fixpoint bootstrap_loop (db : database) (entries : list json)
    : option exception * database :=
  match entries with
  | [] => (None, db)
  | entry :: rest =>
      match bootstrap_entry db entry with
      | inl e => (Some e, db)
      | inr db' => bootstrap_loop db' rest
      end
  end.

(** The [try ... except Exception as e: print(...)] block of [lifespan]:
    [loaded] is the result of [json.loads(DEFAULT_USERS_JSON)].  The result
    is the database with which the application starts serving and the
    exceptions printed. *)
Definition lifespan (db : database) (loaded : exception + json)
    : database * list exception :=
  match loaded ≫= py_iter with
  | inl e => (db, [e])
  | inr entries =>
      match bootstrap_loop db entries with
      | (Some e, db') => (db', [e])
      | (None, db') => (db', [])
      end
  end.

(** ** The application: routes and dependencies *)

Inductive http_method := GET | POST | OTHER.

Global Instance http_method_eq_dec : EqDecision http_method.
Proof. solve_decision. Defined.

(** A request that passed FastAPI's validation of its query and body. *)
Record request := {
  req_method : http_method;
  req_path : string;
  req_authorization : option string;      (* the Authorization header *)
  req_from_id : option Z;
  req_from_user : option string;
  req_to_user : option string;
  req_limit : option Z;
  req_auth_body : AuthRequest;
  req_message_body : MessageIn
}.

(** What a handler reads besides the database and the request. *)
Record environment := {
  now_verify : Z;          (* the clock read by [verify_token] *)
  now_handler : Z;         (* the clock read by the handler *)
  token_hex_16 : string    (* [secrets.token_hex(16)] *)
}.

Inductive endpoint :=
| ep_root
| ep_ping
| ep_authenticate (username : string)
| ep_send_broadcast
| ep_send_direct (to_user : string)
| ep_get_all_messages
| ep_get_broadcast
| ep_get_direct (username : string).

(** The characters a path parameter [{name}] accepts: the regex [[^/]+]. *)
Fixpoint no_slash (s : string) : bool :=
  match s with
  | EmptyString => true
  | String c s' => negb (Ascii.eqb c "/") && no_slash s'
  end.

(** A template without parameter is the regex [^template$], and [$] also
    matches before a newline that ends the path: the template matches the
    path itself and the path followed by one newline. *)
Definition path_is (template : string) (e : endpoint) (path : string)
    : option endpoint :=
  if String.eqb template path || String.eqb (template +:+ LF) path
  then Some e else None.

(** A template [prefix{name}] is the regex [^prefix(?P<name>[^/]+)$]: it
    matches [prefix] followed by one or more characters other than [/]
    (a newline is one of them), all of which are the parameter. *)
Definition path_param (prefix : string) (e : string → endpoint) (path : string)
    : option endpoint :=
  let v := slice_from (String.length prefix) path in
  if startswith prefix path && str_truthy v && no_slash v
  then Some (e v) else None.

(** The routes, in the order of their decorators. *)
Definition routes : list (http_method * (string → option endpoint)) :=
  [ (GET, path_is "/" ep_root);
    (GET, path_is "/ping" ep_ping);
    (POST, path_param "/auth/" ep_authenticate);
    (POST, path_is "/participants" ep_send_broadcast);
    (POST, path_param "/participants/" ep_send_direct);
    (GET, path_is "/messages" ep_get_all_messages);
    (GET, path_is "/participants" ep_get_broadcast);
    (GET, path_param "/participants/" ep_get_direct) ].

(** The first route whose method and path match. *)
Fixpoint first_match (rs : list (http_method * (string → option endpoint)))
    (m : http_method) (path : string) : option endpoint :=
  match rs with
  | [] => None
  | (m', matcher) :: rest =>
      match (if bool_decide (m' = m) then matcher path else None) with
      | Some e => Some e
      | None => first_match rest m path
      end
  end.

Inductive response_body :=
| body_root (s : StatusResponse)
| body_ping (time : Z)
| body_auth (r : AuthResponse)
| body_status (s : StatusResponse)
| body_messages (rows : list MessageOut).

Definition outcome_map {A B} (f : A → B) (o : outcome A) : outcome B :=
  match o with
  | Return a => Return (f a)
  | HTTPException c d => HTTPException c d
  | ServerError e => ServerError e
  end.

(** [response_model=List[MessageOut]]: FastAPI validates what the handler
    returned against the model before it answers.  [from_is_human: bool]
    refuses the NULL of a sender stored without the flag; the other fields
    take every value the query returns. *)
Definition response_model (o : outcome (list MessageOut))
    : outcome (list MessageOut) :=
  match o with
  | Return rows =>
      if forallb (λ r, bool_decide (is_Some (out_from_is_human r))) rows
      then Return rows
      else ServerError "ResponseValidationError"
  | _ => o
  end.

(** [Depends(verify_token)]: the handler runs only when the dependency
    returns, and receives the username it returned. *)
Definition depends_verify_token {A} (db : database) (env : environment)
    (req : request) (handler : string → outcome A * database)
    : outcome A * database :=
  match verify_token db (now_verify env) (req_authorization req) with
  | Return user => handler user
  | HTTPException c d => (HTTPException c d, db)
  | ServerError e => (ServerError e, db)
  end.

Definition read_only {A} (db : database) (o : outcome A) : outcome A * database :=
  (o, db).

Definition with_body {A} (f : A → response_body) (r : outcome A * database)
    : outcome response_body * database :=
  (outcome_map f (fst r), snd r).

(** The eight operations, with the defaults of their signatures. *)
Definition call_endpoint (db : database) (env : environment) (req : request)
    (e : endpoint) : outcome response_body * database :=
  match e with
  | ep_root => (Return (body_root status_ok), db)
  | ep_ping => (Return (body_ping (now_handler env)), db)
  | ep_authenticate username =>
      with_body body_auth
        (authenticate db (now_handler env) (token_hex_16 env) username
           (req_auth_body req))
  | ep_send_broadcast =>
      with_body body_status
        (depends_verify_token db env req
           (send_broadcast db (now_handler env) (req_message_body req)))
  | ep_send_direct to_user =>
      with_body body_status
        (depends_verify_token db env req
           (send_direct db (now_handler env) to_user (req_message_body req)))
  | ep_get_all_messages =>
      with_body body_messages
        (depends_verify_token db env req
           (λ auth_user,
              read_only db
                (response_model
                   (get_all_messages db (default 0 (req_from_id req))
                      (req_from_user req) (req_to_user req)
                      (default 100 (req_limit req)) auth_user))))
  | ep_get_broadcast =>
      with_body body_messages
        (depends_verify_token db env req
           (λ username,
              read_only db
                (response_model
                   (get_broadcast db (default 0 (req_from_id req)) username))))
  | ep_get_direct username =>
      with_body body_messages
        (depends_verify_token db env req
           (λ auth_user,
              read_only db
                (response_model
                   (get_direct db username (default 0 (req_from_id req))
                      auth_user))))
  end.

(** The application: [None] when none of the routes above matches, in which
    case no handler of [main.py] runs. *)
Definition app (db : database) (env : environment) (req : request)
    : option (outcome response_body) * database :=
  match first_match routes (req_method req) (req_path req) with
  | None => (None, db)
  | Some e =>
      let r := call_endpoint db env req e in (Some (fst r), snd r)
  end.

(** * Properties *)

(** ** Vocabulary *)

(** The columns of the message a returned row was built from. *)
Definition row_of (r : MessageOut) : message_row :=
  {| message_id := out_message_id r;
     reply_to_message_id := out_reply_to_message_id r;
     from_username := out_from_username r;
     reply_to_username := out_reply_to_username r;
     message := out_message r;
     datetime := out_datetime r |}.

(** A stored message appears in a result. *)
Definition appears (m : message_row) (rows : list MessageOut) : Prop :=
  m ∈ row_of <$> rows.

(** Ascending without repetition. *)
Definition strictly_by_message_id (r1 r2 : MessageOut) : Prop :=
  out_message_id r1 < out_message_id r2.

(** The constraints of the schema (the two foreign keys and the primary key
    of [messages]), and the fact that the identifiers in use were handed
    out by the sequence. *)
Definition database_ok (db : database) : Prop :=
  Forall (λ m, is_Some (users db !! from_username m)) (messages db)
  ∧ map_Forall (λ _ row, is_Some (users db !! token_username row)) (tokens db)
  ∧ NoDup (message_id <$> messages db)
  ∧ Forall (λ m, message_id m ≤ messages_message_id_seq db) (messages db).

(** A message without recipient: NULL or the empty string. *)
Definition is_broadcast (m : message_row) : Prop :=
  reply_to_username m = None ∨ reply_to_username m = Some EmptyString.

(** The handlers that depend on [verify_token]. *)
Definition authenticated_endpoint (e : endpoint) : Prop :=
  match e with
  | ep_root | ep_ping | ep_authenticate _ => False
  | _ => True
  end.

(** An entry of the configuration of the expected shape: an object with a
    string [username], a string [codeword] and, when present, a boolean or
    null [is_human]. *)
Definition well_formed_entry (entry : json) (username codeword : string) : Prop :=
  ∃ members,
    entry = JObject members
    ∧ dict_get members "username" = Some (JString username)
    ∧ dict_get members "codeword" = Some (JString codeword)
    ∧ (dict_get members "is_human" = None
       ∨ dict_get members "is_human" = Some JNull
       ∨ ∃ b, dict_get members "is_human" = Some (JBool b)).

(** Every stored user has a value in [is_human]: the column accepts NULL,
    which startup stores for an entry with a null [is_human]. *)
Definition is_human_not_null (db : database) : Prop :=
  map_Forall (λ _ u, is_Some (user_is_human u)) (users db).

(** An entry that the loop of [lifespan] accepts whatever the database: of
    the expected shape, with no U+0000 in its username and codeword. *)
Definition accepted_entry (entry : json) (username codeword : string) : Prop :=
  well_formed_entry entry username codeword
  ∧ has_nul username = false ∧ has_nul codeword = false.

(** A path matched by a template without parameter: the template, possibly
    followed by one newline. *)
Definition literal_path (template path : string) : Prop :=
  path = template ∨ path = template +:+ LF.

(** What a send needs to be stored by a database that meets its
    constraints: a reply reference within INTEGER, no U+0000 in the sender,
    the text and the recipient, and a sequence that is not exhausted. *)
Definition storable (db : database) (req : request) (u : string)
    (e : endpoint) : Prop :=
  from_option int4 true (in_reply_to_message_id (req_message_body req)) = true
  ∧ has_nul u = false
  ∧ has_nul (in_message (req_message_body req)) = false
  ∧ match e with ep_send_direct to_user => has_nul to_user = false | _ => True end
  ∧ messages_message_id_seq db < 2147483647.

(** ** Sample data: the scenario of alice and bob *)

Definition alice : user_row := {| user_codeword := "x"; user_is_human := Some true |}.
Definition bob : user_row := {| user_codeword := "y"; user_is_human := Some false |}.

Definition msg_hi : message_row :=
  {| message_id := 1; reply_to_message_id := None; from_username := "alice";
     reply_to_username := None; message := "hi"; datetime := 50 |}.

Definition msg_yo : message_row :=
  {| message_id := 2; reply_to_message_id := Some 1; from_username := "bob";
     reply_to_username := Some "alice"; message := "yo"; datetime := 60 |}.

Definition sample_db : database :=
  {| users := <["alice" := alice]> (<["bob" := bob]> ∅);
     tokens := <["a1" := {| token_username := "alice"; token_expires := 1000 |}]>
               (<["b1" := {| token_username := "bob"; token_expires := 1000 |}]> ∅);
     messages := [msg_hi; msg_yo];
     messages_message_id_seq := 2 |}.

(** The whole feed of [sample_db], as the read handlers return it. *)
Definition sample_feed : list MessageOut :=
  [message_out msg_hi (Some true); message_out msg_yo (Some false)].

Definition sample_env : environment :=
  {| now_verify := 100; now_handler := 101; token_hex_16 := "c0ffee" |}.

Definition sample_request (m : http_method) (path : string)
    (authorization : option string) : request :=
  {| req_method := m; req_path := path; req_authorization := authorization;
     req_from_id := None; req_from_user := None; req_to_user := None;
     req_limit := None;
     req_auth_body := {| codeword := "x" |};
     req_message_body := {| in_reply_to_message_id := None; in_message := "hello" |} |}.

Global Instance message_row_eq_dec : EqDecision message_row.
Proof. solve_decision. Defined.

Global Instance database_ok_dec db : Decision (database_ok db).
Proof. unfold database_ok. apply _. Defined.

(** The addressing rule in the wording of the specification, for a stored
    message [m] and a cursor below its identifier: a message without
    recipient is in the broadcast feed and in no inbox, a message to [U] is
    in the inbox of [U] and not in the broadcast feed.  The feeds are what
    [get_broadcast] and [get_direct] return; a username is a value the
    routes deliver, so it is not empty. *)
Definition addressing_rule_as_stated (db : database) (m : message_row)
    (min_id : Z) : Prop :=
  (is_broadcast m →
     (∀ reader, ∃ rows,
        get_broadcast db min_id reader = Return rows ∧ appears m rows)
     ∧ ∀ u rows, u ≠ EmptyString →
                 get_direct db u min_id u = Return rows → ¬ appears m rows)
  ∧ (∀ U, U ≠ EmptyString → reply_to_username m = Some U →
       (∃ rows, get_direct db U min_id U = Return rows ∧ appears m rows)
       ∧ ∀ reader rows,
           get_broadcast db min_id reader = Return rows → ¬ appears m rows).

(** The inbox rule in the wording of the specification: with a token that
    resolves to [auth_user], another inbox is refused with 403 and the own
    inbox is returned. *)
Definition inbox_rule_as_stated (db : database) (env : environment)
    (req : request) (username : string) : Prop :=
  ∀ auth_user,
    verify_token db (now_verify env) (req_authorization req) = Return auth_user →
    (auth_user ≠ username →
       call_endpoint db env req (ep_get_direct username)
       = (HTTPException 403 "Can only request your own messages", db))
    ∧ (auth_user = username →
       ∃ rows,
         call_endpoint db env req (ep_get_direct username)
         = (Return (body_messages rows), db)).

(** The rule for unknown usernames in the wording of the specification:
    [authenticate] answers 403. *)
Definition unknown_user_rule_as_stated (db : database) (now : Z)
    (token_hex username : string) (req : AuthRequest) : Prop :=
  users db !! username = None →
  authenticate db now token_hex username req
  = (HTTPException 403 "Invalid codeword", db).

(** The stored codewords hold no U+0000, as TEXT values cannot. *)
Definition codewords_without_nul (db : database) : Prop :=
  map_Forall (λ _ u, has_nul (user_codeword u) = false) (users db).

(** A store in which carol has no [is_human] (her entry of the
    configuration had [is_human: null]) and has posted a broadcast. *)
Definition carol_db : database :=
  {| users := <["carol" := {| user_codeword := "z"; user_is_human := None |}]> ∅;
     tokens := <["c1" := {| token_username := "carol"; token_expires := 1000 |}]> ∅;
     messages := [ {| message_id := 1; reply_to_message_id := None;
                      from_username := "carol"; reply_to_username := None;
                      message := "hi"; datetime := 50 |} ];
     messages_message_id_seq := 1 |}.

(** The username [a] followed by U+0000, as [/auth/a%00] delivers it. *)
Definition name_with_nul : string := String "a" (String NUL EmptyString).

(** The validity rule in the wording of the specification: the presented
    token is stored and [now < expires]. *)
Definition token_valid_as_stated (db : database) (now : Z)
    (authorization : option string) (username : string) : Prop :=
  ∃ tok row,
    authorization = Some (Bearer +:+ tok)
    ∧ tokens db !! tok = Some row
    ∧ now < token_expires row
    ∧ token_username row = username.

Definition verify_token_rule_as_stated (db : database) (now : Z)
    (authorization : option string) : Prop :=
  ∀ username,
    verify_token db now authorization = Return username
    ↔ token_valid_as_stated db now authorization username.

(** What the code checks: the stored expiry is not before [now]. *)
Definition token_valid (db : database) (now : Z)
    (authorization : option string) (username : string) : Prop :=
  ∃ tok row,
    authorization = Some (Bearer +:+ tok)
    ∧ tokens db !! tok = Some row
    ∧ now ≤ token_expires row
    ∧ token_username row = username.

(** The bootstrap rule in the wording of the specification: whatever else
    the configured list holds, each of its well-formed entries ends up in
    the User Store. *)
Definition bootstrap_rule_as_stated (db : database) (entries : list json) : Prop :=
  ∀ entry username codeword,
    entry ∈ entries → well_formed_entry entry username codeword →
    is_Some (users (fst (lifespan db (inr (JArray entries)))) !! username).

(** A configuration whose first entry lacks [username]. *)
Definition entry_no_username : json := JObject [("codeword", JString "x")].

Definition entry_bob : json :=
  JObject [("username", JString "bob"); ("codeword", JString "y")].

Definition entry_alice : json :=
  JObject [("username", JString "alice"); ("codeword", JString "x");
           ("is_human", JBool true)].


(** [GET /messages] by alice with the given filters. *)
Definition feed_request (from_user to_user : option string) : request :=
  {| req_method := GET; req_path := "/messages";
     req_authorization := Some "Bearer a1";
     req_from_id := None; req_from_user := from_user; req_to_user := to_user;
     req_limit := None;
     req_auth_body := {| codeword := "x" |};
     req_message_body := {| in_reply_to_message_id := None; in_message := "hello" |} |}.

(** The requests each endpoint answers. *)
Definition route_of (e : endpoint) (m : http_method) (path : string) : Prop :=
  match e with
  | ep_root => m = GET ∧ literal_path "/" path
  | ep_ping => m = GET ∧ literal_path "/ping" path
  | ep_authenticate username =>
      m = POST ∧ path = "/auth/" +:+ username ∧ username ≠ EmptyString
  | ep_send_broadcast => m = POST ∧ literal_path "/participants" path
  | ep_send_direct to_user =>
      m = POST ∧ path = "/participants/" +:+ to_user ∧ to_user ≠ EmptyString
  | ep_get_all_messages => m = GET ∧ literal_path "/messages" path
  | ep_get_broadcast => m = GET ∧ literal_path "/participants" path
  | ep_get_direct username =>
      m = GET ∧ path = "/participants/" +:+ username ∧ username ≠ EmptyString
  end.

(** The database after alice sent a direct message to bob. *)
Definition sample_db_after_send : database :=
  snd (app sample_db sample_env
         (sample_request POST "/participants/bob" (Some "Bearer a1"))).

(** The scenario of the specification, run through the application from
    empty tables: the configuration declares alice and bob, both obtain a
    token, alice posts the broadcast [hi] and bob the direct message [yo]
    to alice. *)
Definition scenario_env (now : Z) (token_hex : string) : environment :=
  {| now_verify := now; now_handler := now; token_hex_16 := token_hex |}.

Definition scenario_request (m : http_method) (path : string)
    (authorization : option string) (cw text : string) : request :=
  {| req_method := m; req_path := path; req_authorization := authorization;
     req_from_id := Some 0; req_from_user := None; req_to_user := None;
     req_limit := None;
     req_auth_body := {| codeword := cw |};
     req_message_body := {| in_reply_to_message_id := None; in_message := text |} |}.

Definition scenario_steps : list (environment * request) :=
  [ (scenario_env 10 "a1", scenario_request POST "/auth/alice" None "x" "-");
    (scenario_env 20 "b1", scenario_request POST "/auth/bob" None "y" "-");
    (scenario_env 50 "-",
     scenario_request POST "/participants" (Some "Bearer a1") "-" "hi");
    (scenario_env 60 "-",
     scenario_request POST "/participants/alice" (Some "Bearer b1") "-" "yo") ].

Definition scenario_db : database :=
  foldl (λ db step, snd (app db (fst step) (snd step)))
    (fst (lifespan empty_database (inr (JArray [entry_alice; entry_bob]))))
    scenario_steps.

Definition scenario_get (path : string) (authorization : string)
    : option (outcome response_body) :=
  fst (app scenario_db (scenario_env 100 "-")
         (scenario_request GET path (Some authorization) "-" "-")).

(** ** Vocabulary of the further properties *)

(** The database after a sequence of requests, each with the environment it
    is served in. *)
Definition run_requests (db : database) (steps : list (environment * request))
    : database :=
  foldl (λ db step, snd (app db (fst step) (snd step))) db steps.

(** The path parameter of an endpoint holds no [/]. *)
Definition param_no_slash (e : endpoint) : Prop :=
  match e with
  | ep_authenticate v | ep_send_direct v | ep_get_direct v => no_slash v = true
  | _ => True
  end.

(** The effect of one iteration of the bootstrap loop on [users]: the
    INSERT of a new row, or the UPDATE of the codeword of the existing one. *)
Definition upsert (n c : string) (h : option bool)
    (U : gmap string user_row) : gmap string user_row :=
  match U !! n with
  | Some existing =>
      <[n := {| user_codeword := c; user_is_human := user_is_human existing |}]> U
  | None => <[n := {| user_codeword := c; user_is_human := h |}]> U
  end.

Definition upserts (ups : list (string * string * option bool))
    (U : gmap string user_row) : gmap string user_row :=
  foldl (λ U x, upsert x.1.1 x.1.2 x.2 U) U ups.

(** The value [entry.get("is_human", True)] gives to the column. *)
Definition entry_is_human (members : list (string * json)) : option bool :=
  match dict_get members "is_human" with
  | None => Some true
  | Some (JBool b) => Some b
  | Some _ => None
  end.



(** The effect of [upsert n c h] on the row stored under the key [k]. *)
Definition upsert_at (k : string) (o : option user_row)
    (x : string * string * option bool) : option user_row :=
  if bool_decide (x.1.1 = k)
  then Some {| user_codeword := x.1.2;
               user_is_human := from_option user_is_human x.2 o |}
  else o.

(** The codeword the upserts leave under the key [k], [d] if none names it. *)
Definition last_codeword (k : string) (d : string)
    (ups : list (string * string * option bool)) : string :=
  foldl (λ d x, if bool_decide (x.1.1 = k) then x.1.2 else d) d ups.


(** [GET /participants/alice?from_id=2147483648] by alice. *)
Definition inbox_request_beyond_integer : request :=
  {| req_method := GET; req_path := "/participants/alice";
     req_authorization := Some "Bearer a1";
     req_from_id := Some 2147483648; req_from_user := None; req_to_user := None;
     req_limit := None;
     req_auth_body := {| codeword := "x" |};
     req_message_body := {| in_reply_to_message_id := None; in_message := "hello" |} |}.

(** ** Strings *)

Lemma str_truthy_true (s : string) : str_truthy s = true ↔ s ≠ EmptyString.
Proof. destruct s; simpl; split; intros; congruence. Qed.

Lemma app_String (a : ascii) (p s : string) :
  String a p +:+ s = String a (p +:+ s).
Proof. reflexivity. Qed.

Lemma startswith_app (p s : string) : startswith p (p +:+ s) = true.
Proof.
  induction p as [|a p IH]; [done|].
  rewrite app_String. simpl. by rewrite Ascii.eqb_refl.
Qed.

Lemma slice_from_app (p s : string) : slice_from (String.length p) (p +:+ s) = s.
Proof. induction p as [|a p IH]; [done|]. by rewrite app_String. Qed.

Lemma startswith_split (p s : string) :
  startswith p s = true → s = p +:+ slice_from (String.length p) s.
Proof.
  revert s. induction p as [|a p IH]; intros s H; [done|].
  destruct s as [|b s]; [done|]. simpl in H.
  destruct (Ascii.eqb a b) eqn:Hab; [|done].
  apply Ascii.eqb_eq in Hab as ->. rewrite app_String. simpl. f_equal. by apply IH.
Qed.

(** The header [Bearer tok] is what the prefix test accepts, and [tok] is
    what the slice extracts from it. *)
Lemma bearer_header (a : string) :
  startswith Bearer a = true ↔ ∃ tok, a = Bearer +:+ tok.
Proof.
  split.
  - intros H. exists (slice_from 7 a). by apply (startswith_split Bearer a).
  - intros (tok & ->). apply startswith_app.
Qed.

Lemma bearer_token (tok : string) : slice_from 7 (Bearer +:+ tok) = tok.
Proof. apply (slice_from_app Bearer tok). Qed.

(** ** Queries *)

Section select.
Context (db : database) (cond : message_row → bool).

Lemma elem_of_join_users m r :
  r ∈ join_users db m ↔
  ∃ u, users db !! from_username m = Some u ∧ r = message_out m (user_is_human u).
Proof.
  unfold join_users. destruct (users db !! from_username m) as [u|].
  - rewrite list_elem_of_singleton. split.
    + intros ->. by exists u.
    + by intros (? & [= <-] & ->).
  - split; [intros []%elem_of_nil | intros (? & ? & _); done].
Qed.

Lemma elem_of_select_messages r :
  r ∈ select_messages db cond ↔
  ∃ m u, m ∈ messages db ∧ cond m = true
         ∧ users db !! from_username m = Some u
         ∧ r = message_out m (user_is_human u).
Proof.
  unfold select_messages. rewrite merge_sort_Permutation.
  rewrite list_elem_of_In, in_flat_map. split.
  - intros (m & [Hm Hc]%filter_In & Hr%list_elem_of_In%elem_of_join_users).
    destruct Hr as (u & Hu & ->). exists m, u.
    by rewrite list_elem_of_In.
  - intros (m & u & Hm%list_elem_of_In & Hc & Hu & ->). exists m. split.
    + by apply filter_In.
    + apply list_elem_of_In, elem_of_join_users. by exists u.
Qed.

Lemma select_messages_sorted : StronglySorted by_message_id (select_messages db cond).
Proof. apply StronglySorted_merge_sort; apply _. Qed.

Lemma row_of_message_out m h : row_of (message_out m h) = m.
Proof. by destruct m. Qed.

(** A stored message whose sender is a user appears iff it satisfies the
    condition. *)
Lemma appears_select_messages m :
  appears m (select_messages db cond) →
  cond m = true.
Proof.
  unfold appears. rewrite list_elem_of_fmap.
  intros (r & -> & (m' & u & _ & Hc & _ & ->)%elem_of_select_messages).
  by rewrite row_of_message_out.
Qed.

Lemma select_messages_appears m :
  m ∈ messages db → is_Some (users db !! from_username m) → cond m = true →
  appears m (select_messages db cond).
Proof.
  intros Hm [u Hu] Hc. unfold appears. apply list_elem_of_fmap.
  exists (message_out m (user_is_human u)). split.
  - by rewrite row_of_message_out.
  - apply elem_of_select_messages. by exists m, u.
Qed.

(** The identifiers of the joined rows are among those of the messages. *)
Lemma joined_ids_sublist (l : list message_row) :
  out_message_id <$> flat_map (join_users db) (List.filter cond l)
    `sublist_of` message_id <$> l.
Proof.
  induction l as [|m l IH]; simpl; [done|].
  destruct (cond m); simpl.
  - unfold join_users at 1. destruct (users db !! from_username m); simpl.
    + by apply sublist_skip.
    + by apply sublist_cons.
  - by apply sublist_cons.
Qed.

Lemma select_messages_ids_NoDup :
  NoDup (message_id <$> messages db) →
  NoDup (out_message_id <$> select_messages db cond).
Proof.
  intros Hnd. unfold select_messages. rewrite merge_sort_Permutation.
  eapply sublist_NoDup; [done | apply joined_ids_sublist].
Qed.

Lemma select_messages_length :
  (length (select_messages db cond) ≤ length (messages db))%nat.
Proof.
  unfold select_messages. rewrite merge_sort_Permutation.
  rewrite <-(length_fmap out_message_id), <-(length_fmap message_id (messages db)).
  apply sublist_length, joined_ids_sublist.
Qed.
End select.

Lemma sorted_NoDup_strict (rows : list MessageOut) :
  StronglySorted by_message_id rows →
  NoDup (out_message_id <$> rows) →
  StronglySorted strictly_by_message_id rows.
Proof.
  induction 1 as [|r rows Hs IH Hall]; intros Hnd; constructor.
  - apply IH. by apply NoDup_cons in Hnd as [_ ?].
  - apply NoDup_cons in Hnd as [Hr _].
    rewrite Forall_forall in Hall. apply Forall_forall. intros r' Hr'.
    specialize (Hall r' Hr'). unfold by_message_id in Hall.
    unfold strictly_by_message_id.
    assert (out_message_id r ≠ out_message_id r'); [|lia].
    intros Heq. apply Hr. rewrite Heq. by apply list_elem_of_fmap_2.
Qed.

Lemma int4_true (z : Z) : int4 z = true ↔ -2147483648 ≤ z ≤ 2147483647.
Proof. unfold int4. rewrite andb_true_iff, !Z.leb_le. done. Qed.

Lemma int8_true (z : Z) :
  int8 z = true ↔ -9223372036854775808 ≤ z ≤ 9223372036854775807.
Proof. unfold int8. rewrite andb_true_iff, !Z.leb_le. done. Qed.

(** [LIMIT] keeps a prefix of at most [n] rows, and refuses an [n] that is
    negative or beyond BIGINT. *)
Lemma sql_limit_Return {A} (n : Z) (l rows : list A) :
  sql_limit n l = Return rows
  ↔ 0 ≤ n ≤ 9223372036854775807 ∧ rows = take (Z.to_nat n) l.
Proof.
  unfold sql_limit. destruct (int8 n) eqn:H8; simpl.
  - apply int8_true in H8. destruct (Z.ltb_spec n 0); split.
    + done.
    + intros [? _]. lia.
    + intros [= <-]. split; [lia|done].
    + by intros [_ ->].
  - split; [done|]. intros [Hn _].
    assert (int8 n = true) by (apply int8_true; lia). congruence.
Qed.

(** ** The generic feed: [get_all_messages] *)

Lemma get_all_messages_conditions_spec from_id from_user to_user m :
  conj_conditions (get_all_messages_conditions from_id from_user to_user) m = true ↔
  from_id < message_id m
  ∧ (∀ v, from_user = Some v → v ≠ EmptyString → from_username m = v)
  ∧ (∀ v, to_user = Some v → v ≠ EmptyString → reply_to_username m = Some v).
Proof.
  unfold conj_conditions, get_all_messages_conditions.
  rewrite !forallb_app, !andb_true_iff. simpl. rewrite andb_true_r.
  unfold cond_message_id_gt. rewrite bool_decide_eq_true.
  assert (Hf : ∀ (o : option string) (c : string → message_row → bool) (P : string → Prop),
             (∀ v, c v m = true ↔ P v) →
             forallb (λ c, c m) (if truthy o then [c (default EmptyString o)] else []) = true
             ↔ ∀ v, o = Some v → v ≠ EmptyString → P v).
  { intros [[|a v]|] c P Hc; simpl.
    - split; [intros _ v [= <-] ?; done | done].
    - rewrite andb_true_r, Hc. split; [by intros ? ? [= <-] _ | intros H; by apply H].
    - split; [intros _ v ?; done | done]. }
  rewrite (Hf from_user cond_from_username_eq (λ v, from_username m = v)),
          (Hf to_user cond_reply_to_username_eq (λ v, reply_to_username m = Some v));
    [done | |]; intros v; unfold cond_reply_to_username_eq, cond_from_username_eq;
    apply bool_decide_eq_true.
Qed.

Lemma get_all_messages_Return db from_id from_user to_user limit auth_user rows :
  get_all_messages db from_id from_user to_user limit auth_user = Return rows ↔
  (0 ≤ limit ≤ 9223372036854775807
   ∧ int4 from_id = true
   ∧ existsb has_nul (get_all_messages_text_params from_user to_user) = false)
  ∧ rows = take (Z.to_nat limit)
             (select_messages db
                (conj_conditions (get_all_messages_conditions from_id from_user to_user))).
Proof.
  unfold get_all_messages.
  destruct (int4 from_id) eqn:H4; simpl; cycle 1.
  { split; [done|]. by intros [(_ & ? & _) _]. }
  destruct (int8 limit) eqn:H8; simpl; cycle 1.
  { split; [done|]. intros [(Hl & _) _].
    assert (int8 limit = true) by (apply int8_true; lia). congruence. }
  destruct (existsb has_nul _) eqn:Hnul; simpl.
  { split; [done|]. by intros [(_ & _ & ?) _]. }
  rewrite sql_limit_Return. split.
  - intros [? ?]. done.
  - intros [(? & _) ?]. done.
Qed.

(** The validation of the response accepts the rows of a query when every
    stored user has a value in [is_human]. *)
Lemma response_model_rows (rows : list MessageOut) :
  Forall (λ r, is_Some (out_from_is_human r)) rows →
  response_model (Return rows) = Return rows.
Proof.
  intros Hall. unfold response_model.
  rewrite (proj2 (forallb_forall _ rows)); [done|].
  intros r Hr%list_elem_of_In. apply bool_decide_eq_true.
  rewrite Forall_forall in Hall. by apply Hall.
Qed.

Lemma select_messages_is_human db cond :
  is_human_not_null db →
  Forall (λ r, is_Some (out_from_is_human r)) (select_messages db cond).
Proof.
  intros Hflags. apply Forall_forall.
  intros r (m & u & _ & _ & Hu & ->)%elem_of_select_messages. simpl.
  by apply (Hflags _ _ Hu).
Qed.

(** What a successful [GET /messages] went through: the dependency returned
    a user, the handler returned the rows, and the database is untouched. *)
Lemma call_get_all_messages_Return db env req rows db' :
  call_endpoint db env req ep_get_all_messages = (Return (body_messages rows), db') →
  ∃ auth_user,
    verify_token db (now_verify env) (req_authorization req) = Return auth_user
    ∧ get_all_messages db (default 0 (req_from_id req)) (req_from_user req)
        (req_to_user req) (default 100 (req_limit req)) auth_user = Return rows
    ∧ db' = db.
Proof.
  unfold call_endpoint, with_body, depends_verify_token, read_only.
  destruct (verify_token _ _ _) as [u| |]; simpl; [|done..].
  destruct (get_all_messages _ _ _ _ _ _) as [rows'| |] eqn:Hget; simpl; [|done..].
  destruct (forallb _ rows'); simpl; [|done].
  intros [= <- <-]. exists u. auto.
Qed.

(** Every row of a page of the generic feed comes from a stored message
    that satisfies the conditions. *)
Lemma get_all_messages_row db from_id from_user to_user limit auth_user rows r :
  get_all_messages db from_id from_user to_user limit auth_user = Return rows →
  r ∈ rows →
  ∃ m u, m ∈ messages db ∧ users db !! from_username m = Some u
         ∧ r = message_out m (user_is_human u)
         ∧ from_id < message_id m
         ∧ (∀ v, from_user = Some v → v ≠ EmptyString → from_username m = v)
         ∧ (∀ v, to_user = Some v → v ≠ EmptyString → reply_to_username m = Some v).
Proof.
  intros [_ ->]%get_all_messages_Return Hr%subseteq_take.
  apply elem_of_select_messages in Hr as (m & u & Hm & Hc & Hu & ->).
  apply get_all_messages_conditions_spec in Hc. by exists m, u.
Qed.

(** C1. Every successful call of GET /messages with cursor [from_id]
    (default 0) and limit [limit] (default 100) returns rows whose
    [message_id] is greater than the cursor, in ascending order of
    [message_id] (strictly ascending when the identifiers of the table are
    distinct, as its primary key requires), and at most [limit] of them. *)
Theorem C1_get_all_messages_page db env req rows db' :
  call_endpoint db env req ep_get_all_messages = (Return (body_messages rows), db') →
  Forall (λ r, default 0 (req_from_id req) < out_message_id r) rows
  ∧ StronglySorted by_message_id rows
  ∧ Z.of_nat (length rows) ≤ default 100 (req_limit req)
  ∧ (NoDup (message_id <$> messages db) → StronglySorted strictly_by_message_id rows).
Proof.
  intros (u & _ & Hget & _)%call_get_all_messages_Return.
  set (X := default 0 (req_from_id req)) in *.
  set (L := default 100 (req_limit req)) in *.
  assert (Hrows := Hget). apply get_all_messages_Return in Hrows as [HL Hrows].
  set (sel := select_messages db _) in Hrows.
  assert (Hsorted : StronglySorted by_message_id rows).
  { apply (StronglySorted_app_1_l _ rows (drop (Z.to_nat L) sel)).
    rewrite Hrows, take_drop. apply select_messages_sorted. }
  split; [|split; [exact Hsorted|split]].
  - apply Forall_forall. intros r Hr.
    destruct (get_all_messages_row _ _ _ _ _ _ _ _ Hget Hr)
      as (m & u' & _ & _ & -> & Hid & _). exact Hid.
  - rewrite Hrows, length_take. lia.
  - intros Hnd. apply sorted_NoDup_strict; [exact Hsorted|].
    rewrite Hrows. apply (sublist_NoDup _ (out_message_id <$> sel)).
    + by apply select_messages_ids_NoDup.
    + apply fmap_sublist, sublist_take.
Qed.

Lemma C1_get_all_messages_page_witness :
  Forall (λ r, 0 < out_message_id r) sample_feed
  ∧ StronglySorted by_message_id sample_feed
  ∧ Z.of_nat (length sample_feed) ≤ 100
  ∧ (NoDup (message_id <$> messages sample_db) →
     StronglySorted strictly_by_message_id sample_feed).
Proof.
  apply (C1_get_all_messages_page sample_db sample_env
           (sample_request GET "/messages" (Some "Bearer a1")) _ sample_db).
  vm_compute. reflexivity.
Defined.

(** ** Broadcast feed and inboxes *)

Lemma appears_query_broadcast db m from_id :
  appears m (query_broadcast db from_id) → from_id < message_id m ∧ is_broadcast m.
Proof.
  intros Hc%appears_select_messages.
  apply andb_true_iff in Hc as [Hid Hb]. split.
  - by apply bool_decide_eq_true in Hid.
  - unfold cond_reply_to_username_null_or_empty in Hb.
    apply orb_true_iff in Hb as [Hb|Hb]; apply bool_decide_eq_true in Hb;
      [by left | by right].
Qed.

Lemma appears_query_direct db m from_id username :
  appears m (query_direct db from_id username) →
  from_id < message_id m ∧ reply_to_username m = Some username.
Proof.
  intros Hc%appears_select_messages.
  apply andb_true_iff in Hc as [Hid Hb]. split.
  - by apply bool_decide_eq_true in Hid.
  - by apply bool_decide_eq_true in Hb.
Qed.

Lemma query_broadcast_appears db m from_id :
  m ∈ messages db → is_Some (users db !! from_username m) →
  from_id < message_id m → is_broadcast m →
  appears m (query_broadcast db from_id).
Proof.
  intros Hm Hu Hid Hb. apply select_messages_appears; [done..|].
  apply andb_true_iff. split; [by apply bool_decide_eq_true|].
  unfold cond_reply_to_username_null_or_empty. apply orb_true_iff.
  destruct Hb as [Hb|Hb]; [left|right]; by apply bool_decide_eq_true.
Qed.

Lemma query_direct_appears db m from_id username :
  m ∈ messages db → is_Some (users db !! from_username m) →
  from_id < message_id m → reply_to_username m = Some username →
  appears m (query_direct db from_id username).
Proof.
  intros Hm Hu Hid Hb. apply select_messages_appears; [done..|].
  apply andb_true_iff. split; by apply bool_decide_eq_true.
Qed.

Lemma database_ok_sender db m :
  database_ok db → m ∈ messages db → is_Some (users db !! from_username m).
Proof. intros [Hfk _] Hm. rewrite Forall_forall in Hfk. by apply Hfk. Qed.

Lemma get_broadcast_Return db from_id reader rows :
  get_broadcast db from_id reader = Return rows
  ↔ int4 from_id = true ∧ rows = query_broadcast db from_id.
Proof.
  unfold get_broadcast. destruct (int4 from_id); simpl; split.
  - by intros [= <-].
  - by intros [_ ->].
  - done.
  - by intros [? _].
Qed.

Lemma get_direct_Return db username from_id auth_user rows :
  get_direct db username from_id auth_user = Return rows
  ↔ username = auth_user ∧ int4 from_id = true ∧ has_nul username = false
    ∧ rows = query_direct db from_id username.
Proof.
  unfold get_direct. case_bool_decide as Hne; simpl.
  { split; [done|]. by intros [? _]. }
  destruct (int4 from_id); simpl; [|split; [done|by intros (_ & ? & _)]].
  destruct (has_nul username); simpl; [split; [done|by intros (_ & _ & ? & _)]|].
  split.
  - by intros [= <-].
  - by intros (_ & _ & _ & ->).
Qed.

(** C2, as stated, fails for a cursor below the range of INTEGER: such a
    cursor is below every [message_id], but [get_broadcast] then raises
    instead of returning the broadcast [msg_hi]. *)
Lemma C2_cursor_below_integer_counterexample :
  database_ok sample_db
  ∧ msg_hi ∈ messages sample_db
  ∧ -2147483649 < message_id msg_hi
  ∧ get_broadcast sample_db (-2147483649) "alice" = ServerError "DataError"
  ∧ ¬ addressing_rule_as_stated sample_db msg_hi (-2147483649).
Proof.
  split; [by apply (bool_decide_unpack _); vm_compute|].
  split; [apply list_elem_of_here|]. split; [done|]. split; [done|].
  intros [Hb _]. destruct (Hb (or_introl eq_refl)) as [Hfeed _].
  destruct (Hfeed "alice") as (rows & Hrows & _). discriminate Hrows.
Qed.

(** C2 (amended). For every stored message [m] of a database that meets the
    constraints of the schema and every cursor within INTEGER and below
    [message_id m]: if the recipient of [m] is NULL or the empty string,
    [get_broadcast] returns [m] and the inbox of no (non-empty) username
    holds it; if the recipient is a non-empty [U] (a stored value, so
    without U+0000), the inbox of [U] holds [m] and [get_broadcast] does
    not return it. *)
Theorem C2_broadcast_direct_partition db m min_id :
  database_ok db → m ∈ messages db → min_id < message_id m →
  int4 min_id = true →
  (is_broadcast m →
     (∀ reader, ∃ rows,
        get_broadcast db min_id reader = Return rows ∧ appears m rows)
     ∧ (∀ u rows, u ≠ EmptyString →
                  get_direct db u min_id u = Return rows → ¬ appears m rows)
     ∧ (reply_to_username m = None →
        ∀ u rows, get_direct db u min_id u = Return rows → ¬ appears m rows))
  ∧ (∀ U, U ≠ EmptyString → has_nul U = false → reply_to_username m = Some U →
       (∃ rows, get_direct db U min_id U = Return rows ∧ appears m rows)
       ∧ ∀ reader rows,
           get_broadcast db min_id reader = Return rows → ¬ appears m rows).
Proof.
  intros Hok Hm Hid H4. pose proof (database_ok_sender _ _ Hok Hm) as Hu. split.
  - intros Hb. split; [|split].
    + intros reader. exists (query_broadcast db min_id). split.
      * by apply get_broadcast_Return.
      * by apply query_broadcast_appears.
    + intros u rows Hne (_ & _ & _ & ->)%get_direct_Return
        [_ Hto]%appears_query_direct.
      destruct Hb as [Hb|Hb]; congruence.
    + intros Hnull u rows (_ & _ & _ & ->)%get_direct_Return
        [_ Hto]%appears_query_direct. congruence.
  - intros U Hne Hnul HU. split.
    + exists (query_direct db min_id U). split.
      * by apply get_direct_Return.
      * by apply query_direct_appears.
    + intros reader rows [_ ->]%get_broadcast_Return
        [_ [Hb|Hb]]%appears_query_broadcast; congruence.
Qed.

Lemma C2_broadcast_direct_partition_witness :
  (is_broadcast msg_yo →
     (∀ reader, ∃ rows,
        get_broadcast sample_db 0 reader = Return rows ∧ appears msg_yo rows)
     ∧ (∀ u rows, u ≠ EmptyString →
                  get_direct sample_db u 0 u = Return rows → ¬ appears msg_yo rows)
     ∧ (reply_to_username msg_yo = None →
        ∀ u rows, get_direct sample_db u 0 u = Return rows → ¬ appears msg_yo rows))
  ∧ (∀ U, U ≠ EmptyString → has_nul U = false → reply_to_username msg_yo = Some U →
       (∃ rows, get_direct sample_db U 0 U = Return rows ∧ appears msg_yo rows)
       ∧ ∀ reader rows,
           get_broadcast sample_db 0 reader = Return rows → ¬ appears msg_yo rows).
Proof.
  apply (C2_broadcast_direct_partition sample_db msg_yo 0).
  - apply (bool_decide_unpack _). vm_compute. exact I.
  - apply list_elem_of_further, list_elem_of_here.
  - reflexivity.
  - reflexivity.
Defined.

(** ** Token validation *)

Lemma startswith_Bearer_truthy (a : string) :
  startswith Bearer a = true → str_truthy a = true.
Proof. by destruct a. Qed.

Lemma verify_token_Return db now authorization username :
  verify_token db now authorization = Return username
  ↔ token_valid db now authorization username.
Proof.
  unfold verify_token, token_valid. destruct authorization as [a|]; cycle 1.
  { split; [done | by intros (? & ? & ? & _)]. }
  destruct (startswith Bearer a) eqn:Hpre.
  - rewrite (startswith_Bearer_truthy a Hpre).
    apply bearer_header in Hpre as (tok & ->). rewrite bearer_token.
    simpl. split.
    + destruct (tokens db !! tok) as [row|] eqn:Hrow; [|done].
      destruct (Z.ltb_spec (token_expires row) now); [done|].
      intros [= <-]. by exists tok, row.
    + intros (tok' & row & Heq & Hrow & Hle & <-).
      assert (tok' = tok) as -> by (apply (inj (String.app Bearer)); congruence).
      rewrite Hrow.
      destruct (Z.ltb_spec (token_expires row) now); [lia | done].
  - rewrite orb_true_r. split; [done|].
    intros (tok & row & [= ->] & _). by rewrite startswith_app in Hpre.
Qed.

(** [verify_token] either returns a username or raises 401. *)
Lemma verify_token_401 db now authorization :
  (∃ username, verify_token db now authorization = Return username)
  ∨ (∃ detail, verify_token db now authorization = HTTPException 401 detail).
Proof.
  unfold verify_token. destruct authorization as [a|]; [|right; eauto].
  destruct (_ || _); [right; eauto|].
  destruct (tokens db !! _) as [row|]; [|right; eauto].
  destruct (_ <? _); [right|left]; eauto.
Qed.

(** A handler behind [Depends(verify_token)] does not run when the
    dependency raises: the exception is the answer and nothing is stored. *)
Lemma call_endpoint_unauthenticated db env req e c d :
  authenticated_endpoint e →
  verify_token db (now_verify env) (req_authorization req) = HTTPException c d →
  call_endpoint db env req e = (HTTPException c d, db).
Proof.
  intros He Hv. destruct e; try done; simpl;
    unfold with_body, depends_verify_token; by rewrite Hv.
Qed.

(** C3, as stated, fails at the instant of expiry: with [now] equal to the
    stored [expires], [verify_token] returns the owner although
    [now < expires] does not hold. *)
Lemma C3_expiry_instant_counterexample :
  ¬ verify_token_rule_as_stated sample_db 1000 (Some "Bearer a1").
Proof.
  intros H. destruct (H "alice") as [Hvalid _].
  destruct Hvalid as (tok & row & Hhdr & Hrow & Hlt & _); [by vm_compute|].
  assert (tok = "a1") as ->.
  { apply (inj (String.app Bearer)). apply (inj Some) in Hhdr. symmetry. exact Hhdr. }
  vm_compute in Hrow. injection Hrow as <-. simpl in Hlt. lia.
Qed.

(** C3 (amended). [verify_token] returns a username iff the header is
    [Bearer tok] for a stored token [tok] whose expiry is not before the
    instant of the check ([now ≤ expires]), and the username is the owner of
    the token; in every other case it raises 401.  A token whose expiry is
    in the past is rejected, and so is every request to a handler that
    depends on [verify_token], which then stores nothing. *)
Theorem C3_verify_token_valid_iff db now authorization :
  (∀ username,
     verify_token db now authorization = Return username
     ↔ token_valid db now authorization username)
  ∧ ((∀ username, ¬ token_valid db now authorization username) →
     ∃ detail, verify_token db now authorization = HTTPException 401 detail)
  ∧ (∀ tok row,
       tokens db !! tok = Some row → token_expires row < now →
       verify_token db now (Some (Bearer +:+ tok))
       = HTTPException 401 "Invalid or expired token")
  ∧ (∀ env req e tok row,
       authenticated_endpoint e →
       req_authorization req = Some (Bearer +:+ tok) →
       tokens db !! tok = Some row → token_expires row < now_verify env →
       call_endpoint db env req e
       = (HTTPException 401 "Invalid or expired token", db)).
Proof.
  assert (Hpast : ∀ now' tok row,
            tokens db !! tok = Some row → token_expires row < now' →
            verify_token db now' (Some (Bearer +:+ tok))
            = HTTPException 401 "Invalid or expired token").
  { intros now' tok row Hrow Hlt. unfold verify_token.
    rewrite startswith_app, (startswith_Bearer_truthy _ (startswith_app _ _)).
    rewrite bearer_token, Hrow. simpl.
    destruct (Z.ltb_spec (token_expires row) now'); [done | lia]. }
  split; [intros username; apply verify_token_Return|]. split; [|split].
  - intros Hnone. destruct (verify_token_401 db now authorization) as [[u Hu]|]; [|done].
    apply verify_token_Return in Hu. by destruct (Hnone u).
  - apply Hpast.
  - intros env req e tok row He Hhdr Hrow Hlt.
    apply call_endpoint_unauthenticated; [done|]. rewrite Hhdr. by eapply Hpast.
Qed.

Lemma C3_verify_token_valid_iff_witness :
  verify_token sample_db 1001 (Some (Bearer +:+ "a1"))
  = HTTPException 401 "Invalid or expired token".
Proof.
  apply (proj1 (proj2 (proj2 (C3_verify_token_valid_iff sample_db 1001 None)))
           "a1" {| token_username := "alice"; token_expires := 1000 |});
    reflexivity.
Defined.

(** ** Startup *)

Lemma lookup_upsert_eq n c h (U : gmap string user_row) :
  upsert n c h U !! n
  = Some {| user_codeword := c;
            user_is_human := from_option user_is_human h (U !! n) |}.
Proof.
  unfold upsert. destruct (U !! n) as [ex|] eqn:Hex; simpl;
    by rewrite lookup_insert_eq.
Qed.

Lemma lookup_upsert_ne n c h (U : gmap string user_row) k :
  n ≠ k → upsert n c h U !! k = U !! k.
Proof. intros Hne. unfold upsert. destruct (U !! n); by rewrite lookup_insert_ne. Qed.

Lemma lookup_upsert_at n c h (U : gmap string user_row) k :
  upsert n c h U !! k = upsert_at k (U !! k) (n, c, h).
Proof.
  unfold upsert_at. simpl. destruct (decide (n = k)) as [->|Hne].
  - by rewrite bool_decide_eq_true_2, lookup_upsert_eq.
  - by rewrite bool_decide_eq_false_2, lookup_upsert_ne.
Qed.

Lemma set_users_id db (f : gmap string user_row → gmap string user_row) :
  f (users db) = users db → set_users f db = db.
Proof. destruct db. unfold set_users. simpl. by intros ->. Qed.

Lemma server_text_Some s :
  has_nul s = false → server_text (Some s) = inr (Some s).
Proof. intros H. simpl. by rewrite H. Qed.

(** An iteration that does not raise is an upsert of the username and
    codeword of the entry, which are strings without U+0000. *)
Lemma bootstrap_entry_upsert db entry db' :
  bootstrap_entry db entry = inr db' →
  ∃ members n c,
    entry = JObject members
    ∧ dict_get members "username" = Some (JString n)
    ∧ dict_get members "codeword" = Some (JString c)
    ∧ has_nul n = false ∧ has_nul c = false
    ∧ db' = set_users (upsert n c (entry_is_human members)) db.
Proof.
  unfold bootstrap_entry. destruct entry as [| | | | |members]; try done. simpl.
  destruct (dict_get members "username") as [vn|] eqn:Hn; simpl; [|done].
  destruct (dict_get members "codeword") as [vc|] eqn:Hc; simpl; [|done].
  destruct vn as [| | |n| |]; simpl; try done.
  - (* NULL username: the INSERT is refused *)
    destruct (text_param vc) as [?|c]; simpl; [done|].
    destruct (bool_param _) as [?|?]; simpl; [done|].
    by destruct (server_text c).
  - destruct (has_nul n) eqn:Hnul; simpl; [done|].
    destruct (users db !! n) as [ex|] eqn:Hex; simpl.
    + destruct vc as [| | |c| |]; simpl; try done.
      destruct (has_nul c) eqn:Hcnul; simpl; [done|].
      destruct (String.eqb_spec (user_codeword ex) c) as [Heq|Hne]; simpl.
      * intros [= <-]. exists members, n, c. repeat split; [done..|].
        symmetry. apply set_users_id. unfold upsert. rewrite Hex.
        apply insert_id. rewrite Hex. f_equal. destruct ex. simpl in *. by subst.
      * intros [= <-]. exists members, n, c. repeat split; [done..|].
        unfold set_users, upsert. by rewrite Hex.
    + destruct vc as [| | |c| |]; simpl; try done.
      * by destruct (bool_param _).
      * destruct (dict_get members "is_human") as [[| | | | |]|] eqn:Hh;
          simpl; try done;
          (destruct (has_nul c) eqn:Hcnul; simpl; [done|]);
          intros [= <-]; exists members, n, c;
          (split; [done|]); (split; [done|]); (split; [done|]);
          (split; [done|]); (split; [done|]);
          unfold set_users, upsert, entry_is_human; by rewrite Hex, Hh.
Qed.

(** An iteration that does not raise only touches [users], and only adds or
    updates a row. *)
Lemma bootstrap_entry_inr db entry db' :
  bootstrap_entry db entry = inr db' →
  tokens db' = tokens db ∧ messages db' = messages db
  ∧ messages_message_id_seq db' = messages_message_id_seq db
  ∧ ∀ n, is_Some (users db !! n) → is_Some (users db' !! n).
Proof.
  intros (members & n & c & _ & _ & _ & _ & _ & ->)%bootstrap_entry_upsert.
  repeat split. intros k Hk. simpl. rewrite lookup_upsert_at. unfold upsert_at.
  simpl. by destruct (bool_decide (n = k)).
Qed.

(** An entry of the expected shape that does not raise leaves its user in
    the store with the configured codeword. *)
Lemma bootstrap_entry_well_formed db entry username codeword db' :
  well_formed_entry entry username codeword →
  bootstrap_entry db entry = inr db' →
  ∃ u, users db' !! username = Some u ∧ user_codeword u = codeword.
Proof.
  intros (members & -> & Hn & Hc & _)
    (members' & n & c & [= <-] & Hn' & Hc' & _ & _ & ->)%bootstrap_entry_upsert.
  rewrite Hn in Hn'. rewrite Hc in Hc'. injection Hn' as <-. injection Hc' as <-.
  simpl. rewrite lookup_upsert_eq. eauto.
Qed.

(** An accepted entry never raises. *)
Lemma bootstrap_entry_accepted db entry username codeword :
  accepted_entry entry username codeword →
  ∃ db', bootstrap_entry db entry = inr db'.
Proof.
  intros ((members & -> & Hn & Hc & Hh) & Hnul & Hcnul).
  unfold bootstrap_entry. simpl. rewrite Hn, Hc. simpl. rewrite Hnul. simpl.
  destruct (users db !! username) as [existing|] eqn:Hex; simpl.
  - rewrite Hcnul. simpl. destruct (negb _); eauto.
  - assert (∃ b, bool_param (default (JBool true) (dict_get members "is_human")) = inr b)
      as [b ->].
    { destruct Hh as [->|[->|[b ->]]]; simpl; eauto. }
    simpl. rewrite Hcnul. simpl. eauto.
Qed.

(** An entry without [username] raises [KeyError]. *)
Lemma bootstrap_entry_missing_username db members :
  dict_get members "username" = None →
  bootstrap_entry db (JObject members) = inl (KeyError "username").
Proof. intros H. unfold bootstrap_entry. simpl. by rewrite H. Qed.

(** So does an entry with a [username] but without [codeword]. *)
Lemma bootstrap_entry_missing_codeword db members :
  is_Some (dict_get members "username") →
  dict_get members "codeword" = None →
  bootstrap_entry db (JObject members) = inl (KeyError "codeword").
Proof. intros [v Hv] H. unfold bootstrap_entry. simpl. by rewrite Hv, H. Qed.

(** An entry that is not an object raises [TypeError]. *)
Lemma bootstrap_entry_not_object db entry :
  (∀ members, entry ≠ JObject members) →
  bootstrap_entry db entry = inl TypeError.
Proof. intros H. destruct entry; try done. by destruct (H members). Qed.

(** An entry whose username holds U+0000 raises at the SELECT. *)
Lemma bootstrap_entry_nul_username db members n :
  dict_get members "username" = Some (JString n) →
  is_Some (dict_get members "codeword") →
  has_nul n = true →
  bootstrap_entry db (JObject members) = inl CharacterNotInRepertoireError.
Proof.
  intros Hn [v Hv] Hnul. unfold bootstrap_entry. simpl. rewrite Hn, Hv. simpl.
  by rewrite Hnul.
Qed.

Lemma has_nul_ne (a c : string) :
  has_nul a = false → has_nul c = true → a ≠ c.
Proof. congruence. Qed.

(** Writing the checks of the UPDATE before the comparison changes nothing
    on a database whose stored codewords hold no U+0000. *)
Lemma bootstrap_entry_source_order db entry :
  codewords_without_nul db →
  bootstrap_entry_in_source_order db entry = bootstrap_entry db entry.
Proof.
  intros Hcw. unfold bootstrap_entry_in_source_order, bootstrap_entry.
  destruct (py_getitem entry "username") as [?|vn]; simpl; [done|].
  destruct (py_getitem entry "codeword") as [?|vc]; simpl; [done|].
  destruct (py_get entry "is_human" (JBool true)) as [?|vh]; simpl; [done|].
  destruct (text_param vn) as [?|[n|]]; simpl; [done| |done].
  destruct (has_nul n); simpl; [done|].
  destruct (users db !! n) as [ex|] eqn:Hex; simpl; [|done].
  destruct vc as [| | |c| |]; simpl; try done.
  destruct (has_nul c) eqn:Hc; simpl; [|done].
  rewrite (proj2 (String.eqb_neq _ _)); [done|].
  apply has_nul_ne; [by apply (Hcw _ _ Hex)|done].
Qed.

(** Startup keeps the stored codewords free of U+0000. *)
Lemma bootstrap_entry_codewords db entry db' :
  codewords_without_nul db → bootstrap_entry db entry = inr db' →
  codewords_without_nul db'.
Proof.
  intros Hcw (members & n & c & _ & _ & _ & _ & Hc & ->)%bootstrap_entry_upsert.
  intros k u. simpl. rewrite lookup_upsert_at. unfold upsert_at. simpl.
  destruct (bool_decide (n = k)); [|by apply Hcw].
  destruct (users db !! k); simpl; by intros [= <-].
Qed.

Lemma bootstrap_loop_app db pre rest :
  bootstrap_loop db (pre ++ rest)
  = match bootstrap_loop db pre with
    | (None, db1) => bootstrap_loop db1 rest
    | (Some e, db1) => (Some e, db1)
    end.
Proof.
  revert db. induction pre as [|entry pre IH]; intros db; simpl; [done|].
  destruct (bootstrap_entry db entry) as [e|db']; [done|]. apply IH.
Qed.

(** Whatever the loop did, it only touched [users] and removed nobody; when
    it ran to its end, every well-formed entry is in the store. *)
Lemma bootstrap_loop_users db entries o db1 :
  bootstrap_loop db entries = (o, db1) →
  tokens db1 = tokens db ∧ messages db1 = messages db
  ∧ (∀ n, is_Some (users db !! n) → is_Some (users db1 !! n))
  ∧ (o = None →
     ∀ entry username codeword,
       entry ∈ entries → well_formed_entry entry username codeword →
       is_Some (users db1 !! username)).
Proof.
  revert db. induction entries as [|entry entries IH]; intros db; simpl.
  - intros [= <- <-]. repeat split; [done|]. by intros _ ? ? ? ?%elem_of_nil.
  - destruct (bootstrap_entry db entry) as [e|db'] eqn:Hentry.
    + intros [= <- <-]. repeat split; done.
    + intros Hloop. destruct (IH db' Hloop) as (Ht & Hm & Hmono & Hall).
      destruct (bootstrap_entry_inr _ _ _ Hentry) as (Ht' & Hm' & _ & Hmono').
      split; [congruence|]. split; [congruence|]. split; [by auto|].
      intros -> entry' n c [->|Hin]%elem_of_cons Hwf; [|by eapply Hall].
      apply Hmono.
      destruct (bootstrap_entry_well_formed db entry n c db' Hwf Hentry)
        as (u & Hu & _). eauto.
Qed.

(** C4, as stated, fails: with a first entry that lacks [username], the
    well-formed entry of bob that follows it is never processed and bob is
    not in the User Store when the application starts. *)
Lemma C4_entries_after_error_counterexample :
  ¬ bootstrap_rule_as_stated empty_database [entry_no_username; entry_bob].
Proof.
  intros H.
  assert (Hbob : is_Some (users (fst (lifespan empty_database
                   (inr (JArray [entry_no_username; entry_bob])))) !! "bob")).
  { apply (H entry_bob "bob" "y").
    - apply list_elem_of_further, list_elem_of_here.
    - eexists. split; [reflexivity|]. repeat split; auto. }
  vm_compute in Hbob. by destruct Hbob.
Qed.

(** C4 (amended). The entries are processed in order up to the first one
    that raises: that exception is printed, the well-formed entries before
    it are in the User Store, the raising entry and every entry after it
    are not processed (the result does not depend on them), and startup
    goes on with that database; the bootstrap touches no other table. *)
Theorem C4_bootstrap_stops_at_first_error db pre bad rest db1 e :
  bootstrap_loop db pre = (None, db1) →
  bootstrap_entry db1 bad = inl e →
  lifespan db (inr (JArray (pre ++ bad :: rest))) = (db1, [e])
  ∧ (∀ entry username codeword,
       entry ∈ pre → well_formed_entry entry username codeword →
       is_Some (users db1 !! username))
  ∧ tokens db1 = tokens db ∧ messages db1 = messages db.
Proof.
  intros Hpre Hbad. split.
  - unfold lifespan. simpl. rewrite bootstrap_loop_app, Hpre. simpl.
    by rewrite Hbad.
  - destruct (bootstrap_loop_users _ _ _ _ Hpre) as (Ht & Hm & _ & Hall).
    split; [by apply Hall|]. done.
Qed.

Lemma C4_bootstrap_stops_at_first_error_witness :
  lifespan empty_database
    (inr (JArray ([entry_alice] ++ entry_no_username :: [entry_bob])))
  = (set_users <["alice" := alice]> empty_database, [KeyError "username"])
  ∧ (∀ entry username codeword,
       entry ∈ [entry_alice] → well_formed_entry entry username codeword →
       is_Some (users (set_users <["alice" := alice]> empty_database) !! username))
  ∧ tokens (set_users <["alice" := alice]> empty_database) = tokens empty_database
  ∧ messages (set_users <["alice" := alice]> empty_database)
    = messages empty_database.
Proof.
  apply (C4_bootstrap_stops_at_first_error empty_database [entry_alice]
           entry_no_username [entry_bob]); reflexivity.
Defined.

(** ** Filters of the generic feed *)

(** A filter that is the empty string builds the same conditions as an
    absent one. *)
Lemma empty_filter_is_absent from_id :
  get_all_messages_conditions from_id (Some EmptyString) (Some EmptyString)
  = get_all_messages_conditions from_id None None.
Proof. reflexivity. Qed.




(** ** The inbox: [get_direct] *)

Lemma elem_of_query_direct db from_id username r :
  r ∈ query_direct db from_id username ↔
  ∃ m u, m ∈ messages db ∧ users db !! from_username m = Some u
         ∧ r = message_out m (user_is_human u)
         ∧ from_id < message_id m ∧ reply_to_username m = Some username.
Proof.
  unfold query_direct. rewrite elem_of_select_messages.
  unfold cond_message_id_gt, cond_reply_to_username_eq.
  split; intros (m & u & Hm & H); exists m, u; (split; [done|]).
  - destruct H as ([Hid Hto]%andb_true_iff & Hu & ->).
    apply bool_decide_eq_true in Hid, Hto. done.
  - destruct H as (Hu & -> & Hid & Hto).
    rewrite andb_true_iff, !bool_decide_eq_true. done.
Qed.

(** C6, as stated, fails for a cursor beyond INTEGER: alice, with her own
    token, asks for her inbox with [from_id = 2147483648] and the query
    raises instead of returning her messages. *)
Lemma C6_cursor_beyond_integer_counterexample :
  verify_token sample_db (now_verify sample_env)
    (req_authorization inbox_request_beyond_integer) = Return "alice"
  ∧ call_endpoint sample_db sample_env inbox_request_beyond_integer
      (ep_get_direct "alice") = (ServerError "DataError", sample_db)
  ∧ ¬ inbox_rule_as_stated sample_db sample_env inbox_request_beyond_integer "alice".
Proof.
  split; [by vm_compute|]. split; [by vm_compute|].
  intros H. destruct (H "alice") as [_ Hown]; [by vm_compute|].
  destruct (Hown eq_refl) as [rows Hrows]. vm_compute in Hrows. discriminate Hrows.
Qed.

(** C6 (amended). For a GET /participants/{username} request whose token
    resolves to [auth_user]: if [auth_user] is not [username] the request
    fails with 403 and returns no message; if it is, and [from_id] lies
    within INTEGER (and [username], like every stored name, holds no
    U+0000), it returns, in ascending order, the rows of exactly the stored
    messages addressed to [username] above the cursor, provided no stored
    user has a NULL [is_human] (which the response model refuses); with a
    [from_id] outside INTEGER the query raises and nothing is returned. *)
Theorem C6_get_direct_owner_only db env req username auth_user :
  verify_token db (now_verify env) (req_authorization req) = Return auth_user →
  (auth_user ≠ username →
     call_endpoint db env req (ep_get_direct username)
     = (HTTPException 403 "Can only request your own messages", db))
  ∧ (auth_user = username →
     int4 (default 0 (req_from_id req)) = true → has_nul username = false →
     is_human_not_null db →
     ∃ rows,
       call_endpoint db env req (ep_get_direct username)
       = (Return (body_messages rows), db)
       ∧ StronglySorted by_message_id rows
       ∧ ∀ r, r ∈ rows ↔
              ∃ m u, m ∈ messages db ∧ users db !! from_username m = Some u
                     ∧ r = message_out m (user_is_human u)
                     ∧ default 0 (req_from_id req) < message_id m
                     ∧ reply_to_username m = Some username)
  ∧ (auth_user = username →
     int4 (default 0 (req_from_id req)) = false →
     call_endpoint db env req (ep_get_direct username)
     = (ServerError "DataError", db)).
Proof.
  intros Hv. simpl. unfold with_body, depends_verify_token, read_only, get_direct.
  rewrite Hv. split; [|split].
  - intros Hne. rewrite bool_decide_eq_true_2; [done | congruence].
  - intros -> H4 Hnul Hflags. rewrite bool_decide_eq_false_2; [|by intros []].
    rewrite H4, Hnul. cbn [negb].
    rewrite response_model_rows by by apply select_messages_is_human.
    eexists. split; [done|]. split.
    + apply select_messages_sorted.
    + apply elem_of_query_direct.
  - intros -> H4. rewrite bool_decide_eq_false_2; [|by intros []].
    by rewrite H4.
Qed.

Lemma C6_get_direct_owner_only_witness :
  ("alice" ≠ "alice" →
     call_endpoint sample_db sample_env
       (sample_request GET "/participants/alice" (Some "Bearer a1")) (ep_get_direct "alice")
     = (HTTPException 403 "Can only request your own messages", sample_db))
  ∧ ("alice" = "alice" →
     int4 0 = true → has_nul "alice" = false →
     is_human_not_null sample_db →
     ∃ rows,
       call_endpoint sample_db sample_env
         (sample_request GET "/participants/alice" (Some "Bearer a1")) (ep_get_direct "alice")
       = (Return (body_messages rows), sample_db)
       ∧ StronglySorted by_message_id rows
       ∧ ∀ r, r ∈ rows ↔
              ∃ m u, m ∈ messages sample_db
                     ∧ users sample_db !! from_username m = Some u
                     ∧ r = message_out m (user_is_human u)
                     ∧ 0 < message_id m
                     ∧ reply_to_username m = Some "alice")
  ∧ ("alice" = "alice" →
     int4 0 = false →
     call_endpoint sample_db sample_env
       (sample_request GET "/participants/alice" (Some "Bearer a1")) (ep_get_direct "alice")
     = (ServerError "DataError", sample_db)).
Proof.
  apply (C6_get_direct_owner_only sample_db sample_env
           (sample_request GET "/participants/alice" (Some "Bearer a1")) "alice" "alice").
  vm_compute. reflexivity.
Defined.

(** With a sender whose [is_human] is NULL the handler returns the row and
    the validation of the response refuses it. *)
Example null_is_human_refused :
  get_broadcast carol_db 0 "carol"
  = Return [ {| out_message_id := 1; out_reply_to_message_id := None;
                out_from_username := "carol"; out_from_is_human := None;
                out_reply_to_username := None; out_message := "hi";
                out_datetime := 50 |} ]
  ∧ call_endpoint carol_db sample_env
      (sample_request GET "/participants" (Some "Bearer c1")) ep_get_broadcast
    = (ServerError "ResponseValidationError", carol_db).
Proof. split; vm_compute; reflexivity. Qed.

(** ** Issuing a token: [authenticate] *)

Lemma insert_token_fresh db tok username exp user :
  tokens db !! tok = None → users db !! username = Some user →
  insert_token db tok username exp
  = Return (set_tokens
              <[tok := {| token_username := username; token_expires := exp |}]> db).
Proof. intros Hfresh Huser. unfold insert_token. by rewrite Hfresh, Huser. Qed.

Lemma authenticate_Return db now tok username req user :
  has_nul username = false →
  users db !! username = Some user → user_codeword user = codeword req →
  tokens db !! tok = None →
  authenticate db now tok username req
  = (Return {| token := tok; expires := now + timedelta_days_1 |},
     set_tokens
       <[tok := {| token_username := username;
                   token_expires := now + timedelta_days_1 |}]> db).
Proof.
  intros Hnul Huser Hcw Hfresh. unfold authenticate.
  rewrite Hnul, Huser, (proj2 (String.eqb_eq _ _) Hcw).
  cbv beta iota zeta delta [negb].
  by rewrite (insert_token_fresh _ _ _ _ user Hfresh Huser).
Qed.

(** C7, as stated, fails for an unknown username that holds U+0000 (the
    request [POST /auth/a%00]): the SELECT raises and the answer is a
    server error, not 403. *)
Lemma C7_nul_username_counterexample :
  users sample_db !! name_with_nul = None
  ∧ fst (authenticate sample_db 101 "c0ffee" name_with_nul {| codeword := "x" |})
    = ServerError "CharacterNotInRepertoireError"
  ∧ ¬ unknown_user_rule_as_stated sample_db 101 "c0ffee" name_with_nul
        {| codeword := "x" |}.
Proof.
  split; [by vm_compute|]. split; [by vm_compute|].
  intros H. specialize (H eq_refl). discriminate H.
Qed.

(** C7 (amended). For a username without U+0000: if it is that of a stored
    user, [authenticate] with the stored codeword returns a token (the
    drawn [token_hex], taken not to collide with a stored token) that
    expires a day later, and [verify_token] on that token returns the same
    username at every instant up to the expiry; if it is unknown, or the
    codeword is another one, [authenticate] raises 403 and stores nothing.
    For a username that holds U+0000 the SELECT raises: the answer is a
    server error and nothing is stored. *)
Theorem C7_issue_then_validate db now token_hex username req :
  (has_nul username = false →
   (∀ user,
      users db !! username = Some user → user_codeword user = codeword req →
      tokens db !! token_hex = None →
      ∃ db',
        authenticate db now token_hex username req
        = (Return {| token := token_hex; expires := now + timedelta_days_1 |}, db')
        ∧ ∀ now', now' ≤ now + timedelta_days_1 →
                  verify_token db' now' (Some (Bearer +:+ token_hex)) = Return username)
   ∧ (users db !! username = None →
      authenticate db now token_hex username req
      = (HTTPException 403 "Invalid codeword", db))
   ∧ (∀ user,
        users db !! username = Some user → user_codeword user ≠ codeword req →
        authenticate db now token_hex username req
        = (HTTPException 403 "Invalid codeword", db)))
  ∧ (has_nul username = true →
     authenticate db now token_hex username req
     = (ServerError "CharacterNotInRepertoireError", db)).
Proof.
  split.
  - intros Hnul. split; [|split].
    + intros user Huser Hcw Hfresh. eexists. split.
      * by apply (authenticate_Return _ _ _ _ _ user).
      * intros now' Hnow'. apply verify_token_Return.
        eexists token_hex, _. split; [done|]. split.
        -- apply (lookup_insert_eq (tokens db)).
        -- done.
    + intros Hnone. unfold authenticate. by rewrite Hnul, Hnone.
    + intros user Huser Hne. unfold authenticate.
      by rewrite Hnul, Huser, (proj2 (String.eqb_neq _ _) Hne).
  - intros Hnul. unfold authenticate. by rewrite Hnul.
Qed.

Lemma C7_issue_then_validate_witness :
  ∃ db',
    authenticate sample_db 101 "c0ffee" "alice" {| codeword := "x" |}
    = (Return {| token := "c0ffee"; expires := 101 + timedelta_days_1 |}, db')
    ∧ ∀ now', now' ≤ 101 + timedelta_days_1 →
              verify_token db' now' (Some (Bearer +:+ "c0ffee")) = Return "alice".
Proof.
  apply (proj1 (proj1 (C7_issue_then_validate sample_db 101 "c0ffee" "alice"
                         {| codeword := "x" |}) eq_refl) alice); reflexivity.
Defined.

(** ** Sending: [send_broadcast] and [send_direct] *)

(** The insertion either appends the row built from its arguments, with the
    next identifier of the sequence, or raises and leaves the table as it
    is. *)
Lemma insert_message_spec db from_user to_user text now reply_to o db' :
  insert_message db from_user to_user text now reply_to = (o, db') →
  users db' = users db ∧ tokens db' = tokens db
  ∧ ((o = Return ()
      ∧ messages db'
        = messages db
          ++ [ {| message_id := messages_message_id_seq db + 1;
                  reply_to_message_id := reply_to;
                  from_username := from_user; reply_to_username := to_user;
                  message := text; datetime := now |} ]
      ∧ messages_message_id_seq db' = messages_message_id_seq db + 1)
     ∨ ((∃ e, o = ServerError e) ∧ messages db' = messages db
        ∧ (messages_message_id_seq db' = messages_message_id_seq db
           ∨ messages_message_id_seq db' = messages_message_id_seq db + 1))).
Proof.
  unfold insert_message.
  destruct (negb _); [intros [= <- <-]; repeat split; right; eauto|].
  destruct (_ || _); [intros [= <- <-]; repeat split; right; eauto|].
  destruct (_ <? _); [intros [= <- <-]; repeat split; right; eauto|].
  destruct (bool_decide _).
  - intros [= <- <-]. simpl. repeat split; right; eauto.
  - destruct (users db !! from_user).
    + intros [= <- <-]. simpl. repeat split; left; eauto.
    + intros [= <- <-]. simpl. repeat split; right; eauto.
Qed.

(** In a database that meets its constraints the insertion for a stored
    user goes through when the parameters are values the store accepts and
    the sequence is not exhausted. *)
Lemma insert_message_ok db from_user to_user text now reply_to :
  database_ok db → is_Some (users db !! from_user) →
  from_option int4 true reply_to = true →
  has_nul from_user = false → from_option has_nul false to_user = false →
  has_nul text = false →
  messages_message_id_seq db < 2147483647 →
  ∃ db', insert_message db from_user to_user text now reply_to = (Return (), db').
Proof.
  intros (_ & _ & _ & Hseq) [u Hu] Hreply Hfrom Hto Htext Hmax.
  unfold insert_message. rewrite Hreply, Hfrom, Hto, Htext. simpl.
  destruct (Z.ltb_spec 2147483647 (messages_message_id_seq db + 1)); [lia|].
  rewrite bool_decide_eq_false_2, Hu; [eauto|].
  intros (m & Hid & Hm)%list_elem_of_fmap.
  rewrite Forall_forall in Hseq. specialize (Hseq m Hm). lia.
Qed.

(** The username [verify_token] returns is that of a stored user. *)
Lemma verify_token_user db now authorization username :
  database_ok db → verify_token db now authorization = Return username →
  is_Some (users db !! username).
Proof.
  intros (_ & Htok & _) (tok & row & _ & Hrow & _ & <-)%verify_token_Return.
  by apply (Htok tok row).
Qed.

(** What the two sending endpoints do once the dependency returned [u]. *)
Lemma call_send_spec db env req e u :
  (e = ep_send_broadcast ∨ ∃ to_user, e = ep_send_direct to_user) →
  verify_token db (now_verify env) (req_authorization req) = Return u →
  ∃ o db',
    insert_message db u
      (match e with ep_send_direct to_user => Some to_user | _ => None end)
      (in_message (req_message_body req)) (now_handler env)
      (in_reply_to_message_id (req_message_body req)) = (o, db')
    ∧ call_endpoint db env req e
      = (match o with
         | Return _ => Return (body_status status_ok)
         | HTTPException c d => HTTPException c d
         | ServerError err => ServerError err
         end, db').
Proof.
  intros He Hv.
  destruct He as [->|[to_user ->]]; simpl;
    unfold with_body, depends_verify_token; rewrite Hv;
    unfold send_broadcast, send_direct;
    destruct (insert_message _ _ _ _ _ _) as [[?| |] db'] eqn:Hins;
    eexists _, _; (split; [done|]); done.
Qed.

Lemma storable_insert db req u e :
  storable db req u e →
  from_option int4 true (in_reply_to_message_id (req_message_body req)) = true
  ∧ has_nul u = false
  ∧ from_option has_nul false
      (match e with ep_send_direct to_user => Some to_user | _ => None end) = false
  ∧ has_nul (in_message (req_message_body req)) = false
  ∧ messages_message_id_seq db < 2147483647.
Proof. intros (? & ? & ? & Hto & ?). by destruct e. Qed.

(** C8. For a POST /participants or POST /participants/{to_user} request
    whose token resolves to [u], whatever the body and the path parameter:
    the only change to the table of messages is the append of one message
    whose [from_username] is [u].  In a database that meets its constraints
    that message is appended, with the text of the body, whenever the
    request is one the store accepts (a reply reference within INTEGER, no
    U+0000 in the text or the recipient, a sequence that is not
    exhausted). *)
Theorem C8_sender_is_authenticated_user db env req e u :
  (e = ep_send_broadcast ∨ ∃ to_user, e = ep_send_direct to_user) →
  verify_token db (now_verify env) (req_authorization req) = Return u →
  (∀ o db',
     call_endpoint db env req e = (o, db') →
     messages db' = messages db
     ∨ ∃ m, messages db' = messages db ++ [m] ∧ from_username m = u)
  ∧ (database_ok db → storable db req u e →
     ∃ m db',
       call_endpoint db env req e = (Return (body_status status_ok), db')
       ∧ messages db' = messages db ++ [m]
       ∧ from_username m = u
       ∧ message m = in_message (req_message_body req)).
Proof.
  intros He Hv.
  destruct (call_send_spec db env req e u He Hv) as (o & db1 & Hins & Hcall).
  pose proof (insert_message_spec _ _ _ _ _ _ _ _ Hins) as (_ & _ & Hmsg).
  split.
  - intros o' db'. rewrite Hcall. intros [= _ <-].
    destruct Hmsg as [(_ & -> & _)|(_ & -> & _)]; [right|left]; eauto.
  - intros Hok (Hreply & Hu & Hto & Htext & Hmax)%storable_insert.
    destruct (insert_message_ok db u
                (match e with ep_send_direct to_user => Some to_user | _ => None end)
                (in_message (req_message_body req)) (now_handler env)
                (in_reply_to_message_id (req_message_body req)) Hok)
      as [db2 Hins2]; [by eapply verify_token_user|done..|].
    rewrite Hins in Hins2. injection Hins2 as -> ->.
    destruct Hmsg as [(_ & Hm & _)|[[err [=]] _]].
    eexists _, db2. split; [exact Hcall|]. split; [exact Hm|]. done.
Qed.

Lemma C8_sender_is_authenticated_user_witness :
  (∀ o db',
     call_endpoint sample_db sample_env
       (sample_request POST "/participants/bob" (Some "Bearer a1"))
       (ep_send_direct "bob") = (o, db') →
     messages db' = messages sample_db
     ∨ ∃ m, messages db' = messages sample_db ++ [m] ∧ from_username m = "alice")
  ∧ (database_ok sample_db →
     storable sample_db (sample_request POST "/participants/bob" (Some "Bearer a1"))
       "alice" (ep_send_direct "bob") →
     ∃ m db',
       call_endpoint sample_db sample_env
         (sample_request POST "/participants/bob" (Some "Bearer a1"))
         (ep_send_direct "bob") = (Return (body_status status_ok), db')
       ∧ messages db' = messages sample_db ++ [m]
       ∧ from_username m = "alice"
       ∧ message m = "hello").
Proof.
  apply (C8_sender_is_authenticated_user sample_db sample_env
           (sample_request POST "/participants/bob" (Some "Bearer a1"))
           (ep_send_direct "bob") "alice").
  - right. exists "bob". reflexivity.
  - vm_compute. reflexivity.
Defined.

(** The sample request is one the store accepts. *)
Example sample_request_storable :
  storable sample_db (sample_request POST "/participants/bob" (Some "Bearer a1"))
    "alice" (ep_send_direct "bob").
Proof. repeat split. Qed.

(** ** The generic feed does not look at the caller *)

Lemma text_params_to_user (U : string) :
  U ≠ EmptyString → has_nul U = false →
  existsb has_nul (get_all_messages_text_params None (Some U)) = false.
Proof.
  intros Hne%str_truthy_true Hnul. unfold get_all_messages_text_params, truthy.
  rewrite Hne. simpl. by rewrite Hnul.
Qed.

(** C9. Two authenticated callers who send GET /messages with the same
    [from_id], [from_user], [to_user] and [limit] against the same database
    get the same answer.  In particular a caller who is not [U] reads the
    messages addressed to [U] by filtering on [to_user = U]: when the cursor
    is within INTEGER, the limit within BIGINT, [U] holds no U+0000 and no
    stored user has a NULL [is_human] (which the response model refuses),
    every message to [U] above the cursor is returned if the limit does not
    cut the result. *)
Theorem C9_feed_independent_of_caller db env1 env2 req1 req2 u1 u2 :
  verify_token db (now_verify env1) (req_authorization req1) = Return u1 →
  verify_token db (now_verify env2) (req_authorization req2) = Return u2 →
  req_from_id req1 = req_from_id req2 →
  req_from_user req1 = req_from_user req2 →
  req_to_user req1 = req_to_user req2 →
  req_limit req1 = req_limit req2 →
  call_endpoint db env1 req1 ep_get_all_messages
  = call_endpoint db env2 req2 ep_get_all_messages
  ∧ (∀ m U,
       m ∈ messages db → is_Some (users db !! from_username m) →
       reply_to_username m = Some U → U ≠ EmptyString →
       has_nul U = false →
       req_to_user req1 = Some U → req_from_user req1 = None →
       int4 (default 0 (req_from_id req1)) = true →
       default 0 (req_from_id req1) < message_id m →
       Z.of_nat (length (messages db)) ≤ default 100 (req_limit req1) →
       default 100 (req_limit req1) ≤ 9223372036854775807 →
       is_human_not_null db →
       ∃ rows,
         call_endpoint db env1 req1 ep_get_all_messages
         = (Return (body_messages rows), db)
         ∧ appears m rows).
Proof.
  intros Hv1 Hv2 Hid Hfrom Hto Hlimit. split.
  - simpl. unfold with_body, depends_verify_token, read_only.
    rewrite Hv1, Hv2. unfold get_all_messages.
    by rewrite Hid, Hfrom, Hto, Hlimit.
  - intros m U Hm Hu HU Hne Hnul HtoU Hnofrom H4 Hcur Hlim Hmax Hflags.
    simpl. unfold with_body, depends_verify_token, read_only.
    rewrite Hv1.
    set (sel := select_messages db
                  (conj_conditions
                     (get_all_messages_conditions (default 0 (req_from_id req1))
                        (req_from_user req1) (req_to_user req1)))).
    assert (Hget : get_all_messages db (default 0 (req_from_id req1))
                     (req_from_user req1) (req_to_user req1)
                     (default 100 (req_limit req1)) u1
                   = Return sel).
    { apply get_all_messages_Return. split.
      - split; [lia|]. split; [done|].
        rewrite HtoU, Hnofrom. by apply text_params_to_user.
      - fold sel. rewrite take_ge; [done|].
        pose proof (select_messages_length db
          (conj_conditions
             (get_all_messages_conditions (default 0 (req_from_id req1))
                (req_from_user req1) (req_to_user req1)))).
        fold sel in H. lia. }
    rewrite Hget, response_model_rows by by apply select_messages_is_human.
    simpl. eexists. split; [done|].
    apply select_messages_appears; [done..|].
    apply get_all_messages_conditions_spec. split; [done|].
    rewrite HtoU, Hnofrom. split; [done|]. by intros v [= <-] _.
Qed.

Lemma C9_feed_independent_of_caller_witness :
  call_endpoint sample_db sample_env (feed_request None (Some "alice"))
    ep_get_all_messages
  = call_endpoint sample_db sample_env
      {| req_method := GET; req_path := "/messages";
         req_authorization := Some "Bearer b1";
         req_from_id := None; req_from_user := None;
         req_to_user := Some "alice"; req_limit := None;
         req_auth_body := {| codeword := "y" |};
         req_message_body := {| in_reply_to_message_id := None;
                                in_message := "other" |} |}
      ep_get_all_messages
  ∧ (∀ m U,
       m ∈ messages sample_db → is_Some (users sample_db !! from_username m) →
       reply_to_username m = Some U → U ≠ EmptyString →
       has_nul U = false →
       Some "alice" = Some U → @None string = None →
       int4 0 = true →
       0 < message_id m →
       Z.of_nat (length (messages sample_db)) ≤ 100 →
       100 ≤ 9223372036854775807 →
       is_human_not_null sample_db →
       ∃ rows,
         call_endpoint sample_db sample_env (feed_request None (Some "alice"))
           ep_get_all_messages
         = (Return (body_messages rows), sample_db)
         ∧ appears m rows).
Proof.
  apply (C9_feed_independent_of_caller sample_db sample_env sample_env
           (feed_request None (Some "alice")) _ "alice" "bob");
    reflexivity.
Defined.

(** The inner hypotheses of C9 hold for the direct message of the sample:
    bob reads the message addressed to alice. *)
Example sample_feed_read_by_other :
  ∃ rows,
    call_endpoint sample_db sample_env
      {| req_method := GET; req_path := "/messages";
         req_authorization := Some "Bearer b1";
         req_from_id := None; req_from_user := None;
         req_to_user := Some "alice"; req_limit := None;
         req_auth_body := {| codeword := "y" |};
         req_message_body := {| in_reply_to_message_id := None;
                                in_message := "other" |} |}
      ep_get_all_messages
    = (Return (body_messages rows), sample_db)
    ∧ appears msg_yo rows.
Proof.
  eexists. split; [vm_compute; reflexivity|].
  unfold appears. simpl. constructor.
Qed.

(** ** Routes *)

Lemma path_is_Some template e path e' :
  path_is template e path = Some e' → literal_path template path ∧ e' = e.
Proof.
  unfold path_is, literal_path.
  destruct (String.eqb_spec template path); simpl; [by intros [= <-]; auto|].
  destruct (String.eqb_spec (template +:+ LF) path); [|done].
  intros [= <-]. auto.
Qed.

Lemma path_is_literal template e path :
  literal_path template path → path_is template e path = Some e.
Proof.
  unfold path_is. intros [-> | ->].
  - by rewrite String.eqb_refl.
  - by rewrite String.eqb_refl, orb_true_r.
Qed.

(** A path parameter is never empty and holds no [/]. *)
Lemma path_param_Some prefix e path e' :
  path_param prefix e path = Some e' →
  ∃ v, path = prefix +:+ v ∧ v ≠ EmptyString ∧ no_slash v = true ∧ e' = e v.
Proof.
  unfold path_param.
  destruct (startswith prefix path) eqn:Hpre; [|done].
  destruct (str_truthy _) eqn:Hne; [|done].
  destruct (no_slash _) eqn:Hslash; [|done].
  intros [= <-]. eexists. split; [by apply startswith_split|].
  split; [by apply str_truthy_true|done].
Qed.

Lemma path_param_app prefix e v :
  v ≠ EmptyString → no_slash v = true →
  path_param prefix e (prefix +:+ v) = Some (e v).
Proof.
  intros Hne%str_truthy_true Hslash. unfold path_param.
  by rewrite startswith_app, slice_from_app, Hne, Hslash.
Qed.

Lemma first_match_routes m path e :
  first_match routes m path = Some e → route_of e m path.
Proof.
  unfold routes, first_match.
  destruct m; simpl;
    repeat match goal with
    | |- context [path_is ?t ?e' path] =>
        let H := fresh "H" in
        destruct (path_is t e' path) eqn:H;
        [apply path_is_Some in H as [? ->]; intros [= <-]; by simpl|]
    | |- context [path_param ?t ?e' path] =>
        let H := fresh "H" in
        destruct (path_param t e' path) eqn:H;
        [apply path_param_Some in H as (v & -> & Hne & _ & ->);
         intros [= <-]; by simpl|]
    end; done.
Qed.

(** ** Recipients of the messages the endpoints create *)

Lemma authenticate_messages db now tok username req o db' :
  authenticate db now tok username req = (o, db') → messages db' = messages db.
Proof.
  unfold authenticate, insert_token.
  destruct (has_nul username); [by intros [= _ <-]|].
  destruct (users db !! username); [|by intros [= _ <-]].
  destruct (negb _); [by intros [= _ <-]|].
  destruct (tokens db !! tok); by intros [= _ <-].
Qed.

(** Only the two sending endpoints change the table of messages, each by
    appending one row with the recipient it was given. *)
Lemma call_endpoint_messages db env req e o db' :
  call_endpoint db env req e = (o, db') →
  messages db' = messages db
  ∨ ∃ m, messages db' = messages db ++ [m]
         ∧ reply_to_username m
           = match e with ep_send_direct to_user => Some to_user | _ => None end
         ∧ (e = ep_send_broadcast ∨ ∃ to_user, e = ep_send_direct to_user).
Proof.
  assert (Hsend : (e = ep_send_broadcast ∨ ∃ to_user, e = ep_send_direct to_user) →
            call_endpoint db env req e = (o, db') →
            messages db' = messages db
            ∨ ∃ m, messages db' = messages db ++ [m]
                   ∧ reply_to_username m
                     = match e with ep_send_direct to_user => Some to_user | _ => None end
                   ∧ (e = ep_send_broadcast ∨ ∃ to_user, e = ep_send_direct to_user)).
  { intros He.
    destruct (verify_token db (now_verify env) (req_authorization req))
      as [u|c d|err] eqn:Hv.
    - destruct (call_send_spec db env req e u He Hv) as (o1 & db1 & Hins & ->).
      intros [= _ <-].
      destruct (insert_message_spec _ _ _ _ _ _ _ _ Hins)
        as (_ & _ & [(_ & -> & _)|(_ & -> & _)]); [right|by left].
      eexists. split; [done|]. by split.
    - rewrite (call_endpoint_unauthenticated db env req e c d); [|by destruct He as [->|[? ->]]|done].
      intros [= _ <-]. by left.
    - destruct (verify_token_401 db (now_verify env) (req_authorization req))
        as [[? ?]|[? ?]]; congruence. }
  destruct e; try (apply Hsend; eauto; fail); intros Hcall; left; simpl in Hcall.
  - by injection Hcall as _ <-.
  - by injection Hcall as _ <-.
  - unfold with_body in Hcall. injection Hcall as _ <-.
    destruct (authenticate _ _ _ _ _) as [o1 db1] eqn:Hauth.
    by apply authenticate_messages in Hauth.
  - unfold with_body, depends_verify_token, read_only in Hcall.
    destruct (verify_token _ _ _); by injection Hcall as _ <-.
  - unfold with_body, depends_verify_token, read_only in Hcall.
    destruct (verify_token _ _ _); by injection Hcall as _ <-.
  - unfold with_body, depends_verify_token, read_only in Hcall.
    destruct (verify_token _ _ _); by injection Hcall as _ <-.
Qed.

(** C10. Whatever the request, the application either leaves the table of
    messages as it is or appends one message, and then either the request
    is a POST that the route /participants answers (the path /participants,
    or that path followed by a line feed, which the pattern of the route
    accepts as well) and the recipient of the message is NULL, or the
    request is POST /participants/{to_user} and the recipient is the path
    parameter [to_user], which is not the empty string.  Hence a table
    without empty-string recipient stays so. *)
Theorem C10_recipient_of_created_messages db env req o db' :
  app db env req = (o, db') →
  (messages db' = messages db
   ∨ ∃ m, messages db' = messages db ++ [m]
          ∧ ((req_method req = POST ∧ literal_path "/participants" (req_path req)
              ∧ reply_to_username m = None)
             ∨ ∃ to_user,
                 req_method req = POST
                 ∧ req_path req = "/participants/" +:+ to_user
                 ∧ to_user ≠ EmptyString
                 ∧ reply_to_username m = Some to_user))
  ∧ (Forall (λ m, reply_to_username m ≠ Some EmptyString) (messages db) →
     Forall (λ m, reply_to_username m ≠ Some EmptyString) (messages db')).
Proof.
  intros Happ.
  assert (Hmain : messages db' = messages db
   ∨ ∃ m, messages db' = messages db ++ [m]
          ∧ ((req_method req = POST ∧ literal_path "/participants" (req_path req)
              ∧ reply_to_username m = None)
             ∨ ∃ to_user,
                 req_method req = POST
                 ∧ req_path req = "/participants/" +:+ to_user
                 ∧ to_user ≠ EmptyString
                 ∧ reply_to_username m = Some to_user)).
  { unfold app in Happ.
    destruct (first_match routes (req_method req) (req_path req)) as [e|] eqn:Hroute;
      [|left; by injection Happ as _ <-].
    apply first_match_routes in Hroute.
    destruct (call_endpoint db env req e) as [o1 db1] eqn:Hcall.
    injection Happ as _ <-.
    destruct (call_endpoint_messages _ _ _ _ _ _ Hcall)
      as [?|(m & Hm & Hto & [->|[to_user ->]])]; [by left|right; exists m..].
    - destruct Hroute as [? ?]. split; [done|]. left. done.
    - destruct Hroute as (? & ? & ?). split; [done|]. right. by exists to_user. }
  split; [exact Hmain|]. intros Hall.
  destruct Hmain as [->|(m & -> & Hm)]; [done|].
  apply Forall_app. split; [done|]. apply Forall_singleton.
  destruct Hm as [(_ & _ & ->)|(to_user & _ & _ & Hne & ->)]; congruence.
Qed.

Lemma C10_recipient_of_created_messages_witness :
  (messages sample_db_after_send = messages sample_db
   ∨ ∃ m, messages sample_db_after_send = messages sample_db ++ [m]
          ∧ ((POST = POST ∧ literal_path "/participants" "/participants/bob"
              ∧ reply_to_username m = None)
             ∨ ∃ to_user,
                 POST = POST
                 ∧ "/participants/bob" = "/participants/" +:+ to_user
                 ∧ to_user ≠ EmptyString
                 ∧ reply_to_username m = Some to_user))
  ∧ (Forall (λ m, reply_to_username m ≠ Some EmptyString) (messages sample_db) →
     Forall (λ m, reply_to_username m ≠ Some EmptyString)
       (messages sample_db_after_send)).
Proof.
  apply (C10_recipient_of_created_messages sample_db sample_env
           (sample_request POST "/participants/bob" (Some "Bearer a1"))
           (Some (Return (body_status status_ok))) sample_db_after_send).
  vm_compute. reflexivity.
Defined.

(** The route /participants also answers the path that ends in a line feed:
    such a POST stores a broadcast. *)
Example broadcast_path_with_line_feed :
  ∃ db',
    app sample_db sample_env
      (sample_request POST ("/participants" +:+ LF) (Some "Bearer a1"))
    = (Some (Return (body_status status_ok)), db')
    ∧ messages db'
      = messages sample_db
        ++ [ {| message_id := 3; reply_to_message_id := None;
                from_username := "alice"; reply_to_username := None;
                message := "hello"; datetime := 101 |} ].
Proof. eexists. split; vm_compute; reflexivity. Qed.

(** ** The scenario of the specification *)

Example scenario_wrong_codeword :
  fst (app scenario_db (scenario_env 100 "c1")
         (scenario_request POST "/auth/alice" None "wrong" "-"))
  = Some (HTTPException 403 "Invalid codeword").
Proof. vm_compute. reflexivity. Qed.

Example scenario_broadcast_feed :
  scenario_get "/participants" "Bearer a1"
  = Some (Return (body_messages
       [ {| out_message_id := 1; out_reply_to_message_id := None;
            out_from_username := "alice"; out_from_is_human := Some true;
            out_reply_to_username := None; out_message := "hi";
            out_datetime := 50 |} ])).
Proof. vm_compute. reflexivity. Qed.

Example scenario_inbox_of_alice :
  scenario_get "/participants/alice" "Bearer a1"
  = Some (Return (body_messages
       [ {| out_message_id := 2; out_reply_to_message_id := None;
            out_from_username := "bob"; out_from_is_human := Some true;
            out_reply_to_username := Some "alice"; out_message := "yo";
            out_datetime := 60 |} ])).
Proof. vm_compute. reflexivity. Qed.

Example scenario_inbox_of_alice_as_bob :
  scenario_get "/participants/alice" "Bearer b1"
  = Some (HTTPException 403 "Can only request your own messages").
Proof. vm_compute. reflexivity. Qed.

Example scenario_no_token :
  scenario_get "/messages" "Bearer zz"
  = Some (HTTPException 401 "Invalid or expired token").
Proof. vm_compute. reflexivity. Qed.

Example scenario_empty_path_parameter :
  scenario_get "/participants/" "Bearer a1" = None.
Proof. vm_compute. reflexivity. Qed.

(** ** The constraints are kept *)

Lemma database_ok_empty : database_ok empty_database.
Proof.
  repeat split; simpl; try by constructor.
  apply map_Forall_empty.
Qed.

(** Adding or updating users keeps the constraints. *)
Lemma database_ok_users_grow db db' :
  database_ok db →
  (∀ n, is_Some (users db !! n) → is_Some (users db' !! n)) →
  tokens db' = tokens db → messages db' = messages db →
  messages_message_id_seq db' = messages_message_id_seq db →
  database_ok db'.
Proof.
  intros (Hm & Ht & Hnd & Hseq) Hgrow Etok Emsg Eseq.
  unfold database_ok. rewrite Etok, Emsg, Eseq. repeat split; [| |done..].
  - eapply Forall_impl; [exact Hm|]. intros m. apply Hgrow.
  - intros tok row Hrow. apply Hgrow. by apply (Ht tok row).
Qed.

Lemma bootstrap_loop_seq db entries o db1 :
  bootstrap_loop db entries = (o, db1) →
  messages_message_id_seq db1 = messages_message_id_seq db.
Proof.
  revert db. induction entries as [|entry entries IH]; intros db; simpl.
  - by intros [= _ <-].
  - destruct (bootstrap_entry db entry) as [e|db'] eqn:Hentry.
    + by intros [= _ <-].
    + intros Hloop%IH. destruct (bootstrap_entry_inr _ _ _ Hentry) as (_ & _ & Hs & _).
      congruence.
Qed.

(** Startup keeps the constraints, whatever the configuration. *)
Lemma lifespan_database_ok db loaded :
  database_ok db → database_ok (fst (lifespan db loaded)).
Proof.
  intros Hok. unfold lifespan. destruct (loaded ≫= py_iter) as [e|entries]; [done|].
  destruct (bootstrap_loop db entries) as [o db1] eqn:Hloop.
  destruct (bootstrap_loop_users _ _ _ _ Hloop) as (Ht & Hm & Hgrow & _).
  pose proof (bootstrap_loop_seq _ _ _ _ Hloop) as Hs.
  assert (database_ok db1) by by eapply database_ok_users_grow.
  by destruct o.
Qed.

(** When every entry is accepted nothing is printed and every configured
    user is in the store. *)
Lemma lifespan_all_well_formed db entries :
  Forall (λ entry, ∃ username codeword, accepted_entry entry username codeword)
    entries →
  ∃ db1, lifespan db (inr (JArray entries)) = (db1, [])
         ∧ ∀ entry username codeword,
             entry ∈ entries → well_formed_entry entry username codeword →
             is_Some (users db1 !! username).
Proof.
  intros Hall.
  assert (Hloop : ∃ db1, bootstrap_loop db entries = (None, db1)).
  { revert db. induction Hall as [|entry entries (n & c & Hwf) _ IH]; intros db; simpl.
    - eauto.
    - destruct (bootstrap_entry_accepted db entry n c Hwf) as (db' & ->).
      apply IH. }
  destruct Hloop as [db1 Hloop]. exists db1. split.
  - unfold lifespan. simpl. by rewrite Hloop.
  - by apply (bootstrap_loop_users _ _ _ _ Hloop).
Qed.

Lemma insert_message_database_ok db from_user to_user text now reply_to :
  database_ok db →
  database_ok (snd (insert_message db from_user to_user text now reply_to)).
Proof.
  intros (Hm & Ht & Hnd & Hseq). unfold insert_message.
  assert (Hseq' : Forall (λ m, message_id m ≤ messages_message_id_seq db + 1)
                    (messages db)).
  { eapply Forall_impl; [exact Hseq|]. simpl. intros. lia. }
  destruct (negb _); [by repeat split|].
  destruct (_ || _); [by repeat split|].
  destruct (_ <? _); [by repeat split|].
  destruct (bool_decide _) eqn:Hfresh; [by repeat split|].
  apply bool_decide_eq_false in Hfresh.
  destruct (users db !! from_user) as [u|] eqn:Hu; [|by repeat split].
  unfold database_ok. simpl. rewrite fmap_app. simpl. repeat split.
  - apply Forall_app. split; [done|]. apply Forall_singleton. simpl. eauto.
  - done.
  - apply NoDup_app. split; [done|]. split; [|apply NoDup_singleton].
    intros id Hid ->%list_elem_of_singleton. done.
  - apply Forall_app. split; [done|]. apply Forall_singleton. simpl. lia.
Qed.

Lemma authenticate_database_ok db now tok username req :
  database_ok db → database_ok (snd (authenticate db now tok username req)).
Proof.
  intros Hok. unfold authenticate, insert_token.
  destruct (has_nul username); [done|].
  destruct (users db !! username) as [user|] eqn:Hu; [|done].
  destruct (negb _); [done|].
  destruct (tokens db !! tok) eqn:Htok; [done|]. simpl.
  destruct Hok as (Hm & Ht & Hnd & Hseq). repeat split; simpl; [done| |done..].
  apply map_Forall_insert; [done|]. split; [simpl; eauto|done].
Qed.

(** Every request keeps the constraints: together with [database_ok_empty]
    and [lifespan_database_ok], every database the application reaches
    from empty tables meets them. *)
Lemma app_database_ok db env req :
  database_ok db → database_ok (snd (app db env req)).
Proof.
  intros Hok. unfold app.
  destruct (first_match routes (req_method req) (req_path req)) as [e|]; [|done].
  simpl. destruct e; simpl; try done.
  - by apply authenticate_database_ok.
  - unfold depends_verify_token. destruct (verify_token _ _ _) as [u| |]; [|done..].
    unfold send_broadcast.
    pose proof (insert_message_database_ok db u None
                  (in_message (req_message_body req)) (now_handler env)
                  (in_reply_to_message_id (req_message_body req)) Hok) as H.
    by destruct (insert_message _ _ _ _ _ _) as [[?| |] ?].
  - unfold depends_verify_token. destruct (verify_token _ _ _) as [u| |]; [|done..].
    unfold send_direct.
    pose proof (insert_message_database_ok db u (Some to_user)
                  (in_message (req_message_body req)) (now_handler env)
                  (in_reply_to_message_id (req_message_body req)) Hok) as H.
    by destruct (insert_message _ _ _ _ _ _) as [[?| |] ?].
  - unfold depends_verify_token. by destruct (verify_token _ _ _).
  - unfold depends_verify_token. by destruct (verify_token _ _ _).
  - unfold depends_verify_token. by destruct (verify_token _ _ _).
Qed.

Lemma scenario_db_ok : database_ok scenario_db.
Proof.
  unfold scenario_db.
  assert (Hfold : ∀ steps db, database_ok db →
            database_ok (foldl (λ db step, snd (app db (fst step) (snd step))) db steps)).
  { induction steps as [|step steps IH]; intros db Hok; simpl; [done|].
    by apply IH, app_database_ok. }
  apply Hfold, lifespan_database_ok, database_ok_empty.
Qed.

(** * Further properties *)

(** ** One request, step by step *)

(** What any endpoint may do to the database: [users] is never written, a
    stored token is never removed or changed, the sequence never goes back,
    and the table of messages is left alone or receives one row whose
    identifier is the next value of the sequence. *)
Lemma call_endpoint_step db env req e :
  users (snd (call_endpoint db env req e)) = users db
  ∧ tokens db ⊆ tokens (snd (call_endpoint db env req e))
  ∧ messages_message_id_seq db
    ≤ messages_message_id_seq (snd (call_endpoint db env req e))
  ∧ (messages (snd (call_endpoint db env req e)) = messages db
     ∨ ∃ m, messages (snd (call_endpoint db env req e)) = messages db ++ [m]
            ∧ message_id m = messages_message_id_seq db + 1
            ∧ messages_message_id_seq (snd (call_endpoint db env req e))
              = messages_message_id_seq db + 1).
Proof.
  assert (Hsame : ∀ db' : database, db' = db →
            users db' = users db ∧ tokens db ⊆ tokens db'
            ∧ messages_message_id_seq db ≤ messages_message_id_seq db'
            ∧ (messages db' = messages db
               ∨ ∃ m, messages db' = messages db ++ [m]
                      ∧ message_id m = messages_message_id_seq db + 1
                      ∧ messages_message_id_seq db' = messages_message_id_seq db + 1)).
  { intros db' ->. repeat split; [done|lia|by left]. }
  assert (Hsend : (e = ep_send_broadcast ∨ ∃ to_user, e = ep_send_direct to_user) →
            users (snd (call_endpoint db env req e)) = users db
            ∧ tokens db ⊆ tokens (snd (call_endpoint db env req e))
            ∧ messages_message_id_seq db
              ≤ messages_message_id_seq (snd (call_endpoint db env req e))
            ∧ (messages (snd (call_endpoint db env req e)) = messages db
               ∨ ∃ m, messages (snd (call_endpoint db env req e)) = messages db ++ [m]
                      ∧ message_id m = messages_message_id_seq db + 1
                      ∧ messages_message_id_seq (snd (call_endpoint db env req e))
                        = messages_message_id_seq db + 1)).
  { intros He.
    destruct (verify_token db (now_verify env) (req_authorization req))
      as [u|c d|err] eqn:Hv.
    - destruct (call_send_spec db env req e u He Hv) as (o1 & db1 & Hins & ->).
      simpl.
      destruct (insert_message_spec _ _ _ _ _ _ _ _ Hins)
        as (-> & -> & Hm).
      split; [done|]. split; [done|].
      destruct Hm as [(_ & -> & ->)|(_ & -> & Hs)].
      * split; [lia|]. right. eexists. split; [done|]. by split.
      * split; [lia|]. by left.
    - rewrite (call_endpoint_unauthenticated db env req e c d);
        [by apply Hsame|by destruct He as [->|[? ->]]|done].
    - destruct (verify_token_401 db (now_verify env) (req_authorization req))
        as [[? ?]|[? ?]]; congruence. }
  destruct e; try (apply Hsend; eauto; fail); simpl;
    unfold with_body, depends_verify_token, read_only; simpl;
    try (by apply Hsame);
    try (destruct (verify_token _ _ _); by apply Hsame).
  unfold authenticate, insert_token.
  destruct (has_nul username); [by apply Hsame|].
  destruct (users db !! username) as [user|]; [|by apply Hsame].
  destruct (negb _); [by apply Hsame|].
  destruct (tokens db !! token_hex_16 env) eqn:Hfresh; [by apply Hsame|].
  simpl. repeat split; [by apply insert_subseteq|lia|by left].
Qed.

Lemma app_step db env req :
  users (snd (app db env req)) = users db
  ∧ tokens db ⊆ tokens (snd (app db env req))
  ∧ messages_message_id_seq db ≤ messages_message_id_seq (snd (app db env req))
  ∧ (messages (snd (app db env req)) = messages db
     ∨ ∃ m, messages (snd (app db env req)) = messages db ++ [m]
            ∧ message_id m = messages_message_id_seq db + 1
            ∧ messages_message_id_seq (snd (app db env req))
              = messages_message_id_seq db + 1).
Proof.
  unfold app.
  destruct (first_match routes (req_method req) (req_path req)) as [e|]; simpl.
  - apply call_endpoint_step.
  - repeat split; [done|lia|by left].
Qed.

Lemma run_requests_cons db step steps :
  run_requests db (step :: steps)
  = run_requests (snd (app db (fst step) (snd step))) steps.
Proof. reflexivity. Qed.

(** ** Sequences of requests *)

Lemma run_requests_messages db steps :
  ∃ new,
    messages (run_requests db steps) = messages db ++ new
    ∧ messages_message_id_seq db ≤ messages_message_id_seq (run_requests db steps)
    ∧ Forall (λ m, messages_message_id_seq db < message_id m) new
    ∧ StronglySorted Z.lt (message_id <$> new).
Proof.
  revert db. induction steps as [|[env req] steps IH]; intros db.
  - exists []. simpl. rewrite app_nil_r. repeat split; [lia|constructor..].
  - rewrite run_requests_cons. simpl.
    destruct (app_step db env req) as (_ & _ & Hseq & Hmsg).
    destruct (IH (snd (app db env req))) as (new & Hnew & Hseq' & Hall & Hsorted).
    destruct Hmsg as [Hm|(m & Hm & Hid & Hs)]; rewrite Hm in Hnew.
    + exists new. split; [done|]. split; [lia|]. split; [|done].
      eapply Forall_impl; [exact Hall|]. simpl. intros. lia.
    + exists (m :: new). split; [by rewrite <-(assoc_L (++)) in Hnew|].
      split; [lia|]. split.
      * constructor; [lia|]. eapply Forall_impl; [exact Hall|]. simpl. intros. lia.
      * rewrite fmap_cons. constructor; [done|].
        apply Forall_fmap. eapply Forall_impl; [exact Hall|]. simpl. intros. lia.
Qed.

(** X1. Whatever requests are served, the messages they create are appended
    in the order of their creation with identifiers that strictly increase
    and lie above the value the sequence had before: no identifier is given
    twice and list order, insertion order and identifier order agree. *)
Theorem X1_created_message_ids_increase db steps :
  ∃ new,
    messages (run_requests db steps) = messages db ++ new
    ∧ Forall (λ m, messages_message_id_seq db < message_id m) new
    ∧ StronglySorted Z.lt (message_id <$> new).
Proof.
  destruct (run_requests_messages db steps) as (new & ? & _ & ? & ?). by exists new.
Qed.

(** X2. Startup with any configuration, followed by any sequence of
    requests, keeps the constraints of the schema: every sender and every
    token owner is a stored user, message identifiers are distinct and none
    exceeds the value of the sequence. *)
Theorem X2_reachable_databases_ok db loaded steps :
  database_ok db →
  database_ok (run_requests (fst (lifespan db loaded)) steps).
Proof.
  intros Hok. apply (lifespan_database_ok _ loaded) in Hok.
  revert Hok. generalize (fst (lifespan db loaded)). clear db.
  induction steps as [|step steps IH]; intros db Hok; [done|].
  rewrite run_requests_cons. by apply IH, app_database_ok.
Qed.

Lemma X2_reachable_databases_ok_witness :
  database_ok
    (run_requests
       (fst (lifespan empty_database (inr (JArray [entry_alice; entry_bob]))))
       scenario_steps).
Proof.
  apply (X2_reachable_databases_ok empty_database
           (inr (JArray [entry_alice; entry_bob])) scenario_steps).
  apply (bool_decide_unpack _). vm_compute. exact I.
Defined.

(** X3. A request whose method is not POST never changes the database: the
    five GET handlers only read, whether the token is accepted or not. *)
Theorem X3_only_post_writes db env req :
  req_method req ≠ POST → snd (app db env req) = db.
Proof.
  intros Hm. unfold app.
  destruct (first_match routes (req_method req) (req_path req)) as [e|] eqn:Hroute;
    [|done].
  apply first_match_routes in Hroute. simpl.
  destruct e; simpl in Hroute; try (by destruct Hroute as [? _]);
    simpl; unfold depends_verify_token, read_only;
    try done; by destruct (verify_token _ _ _).
Qed.

Lemma X3_only_post_writes_witness :
  snd (app sample_db sample_env (feed_request None (Some "alice"))) = sample_db.
Proof.
  apply (X3_only_post_writes sample_db sample_env (feed_request None (Some "alice"))).
  discriminate.
Defined.

Lemma verify_token_mono db db' now authorization u :
  tokens db ⊆ tokens db' →
  verify_token db now authorization = Return u →
  verify_token db' now authorization = Return u.
Proof.
  intros Hsub (tok & row & ? & Hrow & ? & ?)%verify_token_Return.
  apply verify_token_Return. exists tok, row. split; [done|]. split; [|done].
  by apply (proj1 (map_subseteq_spec _ _) Hsub).
Qed.

(** X4. The requests only ever add: after any sequence of requests the
    User Store is what it was, every stored token is still there with the
    same owner and expiry (there is no revocation or renewal), the stored
    messages are a prefix of the table, and a header that [verify_token]
    accepted at some instant is still accepted at that instant. *)
Theorem X4_requests_only_add db steps :
  users (run_requests db steps) = users db
  ∧ tokens db ⊆ tokens (run_requests db steps)
  ∧ messages db `prefix_of` messages (run_requests db steps)
  ∧ ∀ now authorization u,
      verify_token db now authorization = Return u →
      verify_token (run_requests db steps) now authorization = Return u.
Proof.
  assert (H : users (run_requests db steps) = users db
              ∧ tokens db ⊆ tokens (run_requests db steps)).
  { revert db. induction steps as [|[env req] steps IH]; intros db; [done|].
    rewrite run_requests_cons. simpl.
    destruct (app_step db env req) as (Hu & Ht & _).
    destruct (IH (snd (app db env req))) as [Hu' Ht'].
    split; [congruence|]. by etrans. }
  destruct H as [Hu Ht]. split; [done|]. split; [done|]. split.
  - destruct (run_requests_messages db steps) as (new & -> & _). by exists new.
  - intros now authorization u. by apply verify_token_mono.
Qed.

(** ** The Authorization header *)

(** X5. A handler that depends on [verify_token] answers 401 "Missing or
    invalid Authorization header" when the header is absent or does not
    start with [Bearer ] (the prefix is case sensitive and includes the
    space), and 401 "Invalid or expired token" when the token after the
    prefix is not stored; in both cases nothing is written. *)
Theorem X5_header_errors db env req e :
  authenticated_endpoint e →
  ((req_authorization req = None
    ∨ ∃ a, req_authorization req = Some a ∧ startswith Bearer a = false) →
   call_endpoint db env req e
   = (HTTPException 401 "Missing or invalid Authorization header", db))
  ∧ (∀ tok,
       req_authorization req = Some (Bearer +:+ tok) → tokens db !! tok = None →
       call_endpoint db env req e
       = (HTTPException 401 "Invalid or expired token", db)).
Proof.
  intros He. split.
  - intros Hhdr. apply call_endpoint_unauthenticated; [done|].
    unfold verify_token. destruct Hhdr as [->|(a & -> & ->)]; [done|].
    by rewrite orb_true_r.
  - intros tok Hhdr Hnone. apply call_endpoint_unauthenticated; [done|].
    rewrite Hhdr. unfold verify_token.
    rewrite startswith_app, (startswith_Bearer_truthy _ (startswith_app _ _)).
    by rewrite bearer_token, Hnone.
Qed.

Lemma X5_header_errors_witness :
  ((Some "bearer a1" = None
    ∨ ∃ a, Some "bearer a1" = Some a ∧ startswith Bearer a = false) →
   call_endpoint sample_db sample_env
     (sample_request GET "/participants" (Some "bearer a1")) ep_get_broadcast
   = (HTTPException 401 "Missing or invalid Authorization header", sample_db))
  ∧ (∀ tok,
       Some "bearer a1" = Some (Bearer +:+ tok) → tokens sample_db !! tok = None →
       call_endpoint sample_db sample_env
         (sample_request GET "/participants" (Some "bearer a1")) ep_get_broadcast
       = (HTTPException 401 "Invalid or expired token", sample_db)).
Proof.
  apply (X5_header_errors sample_db sample_env
           (sample_request GET "/participants" (Some "bearer a1")) ep_get_broadcast).
  exact I.
Defined.

(** ** What the read handlers return *)

(** X6. Every row returned by GET /messages, GET /participants or
    GET /participants/{username} carries the columns of a stored message,
    its sender is a stored user, and [from_is_human] is the flag that user
    has in the User Store when the query runs. *)
Theorem X6_rows_are_joined_messages db from_id from_user to_user limit username
    auth_user rows :
  get_all_messages db from_id from_user to_user limit auth_user = Return rows
  ∨ get_broadcast db from_id auth_user = Return rows
  ∨ get_direct db username from_id auth_user = Return rows →
  ∀ r, r ∈ rows →
       row_of r ∈ messages db
       ∧ ∃ u, users db !! out_from_username r = Some u
              ∧ out_from_is_human r = user_is_human u.
Proof.
  assert (Hsel : ∀ cond r, r ∈ select_messages db cond →
            row_of r ∈ messages db
            ∧ ∃ u, users db !! out_from_username r = Some u
                   ∧ out_from_is_human r = user_is_human u).
  { intros cond r (m & u & Hm & _ & Hu & ->)%elem_of_select_messages.
    rewrite row_of_message_out. split; [done|]. by exists u. }
  intros [Hall|[Hb|Hd]] r Hr.
  - apply get_all_messages_Return in Hall as [_ ->].
    apply subseteq_take in Hr. by eapply Hsel.
  - apply get_broadcast_Return in Hb as [_ ->]. by eapply Hsel.
  - apply get_direct_Return in Hd as (_ & _ & _ & ->). by eapply Hsel.
Qed.

Lemma X6_rows_are_joined_messages_witness :
  row_of (message_out msg_yo (Some false)) ∈ messages sample_db
  ∧ ∃ u, users sample_db !! out_from_username (message_out msg_yo (Some false))
         = Some u
         ∧ out_from_is_human (message_out msg_yo (Some false)) = user_is_human u.
Proof.
  apply (X6_rows_are_joined_messages sample_db 0 None None 100 "alice" "alice"
           sample_feed).
  - left. vm_compute. reflexivity.
  - apply list_elem_of_further, list_elem_of_here.
Defined.

(** X7. The inbox is the generic feed filtered on the recipient: when the
    owner's GET /participants/{username} returns [rows], any caller's
    GET /messages with [to_user = username], no [from_user], the same cursor
    and a limit within BIGINT that does not cut the result returns the same
    [rows]. *)
Theorem X7_inbox_is_filtered_feed db username from_id limit auth_user caller rows :
  username ≠ EmptyString →
  Z.of_nat (length (messages db)) ≤ limit →
  limit ≤ 9223372036854775807 →
  get_direct db username from_id auth_user = Return rows →
  get_all_messages db from_id None (Some username) limit caller = Return rows.
Proof.
  intros Hne Hlimit Hmax (_ & H4 & Hnul & ->)%get_direct_Return.
  apply get_all_messages_Return.
  split; [split; [lia|]; split; [done|]; by apply text_params_to_user|].
  assert (Hsel : select_messages db
            (conj_conditions (get_all_messages_conditions from_id None (Some username)))
          = query_direct db from_id username).
  { unfold query_direct, select_messages. f_equal. f_equal.
    apply filter_ext. intros m. apply str_truthy_true in Hne.
    unfold conj_conditions, get_all_messages_conditions. simpl. rewrite Hne. simpl.
    by rewrite andb_true_r. }
  rewrite Hsel, take_ge; [done|].
  pose proof (select_messages_length db
    (λ m, cond_message_id_gt from_id m && cond_reply_to_username_eq username m)).
  unfold query_direct. lia.
Qed.

Lemma X7_inbox_is_filtered_feed_witness :
  get_all_messages sample_db 0 None (Some "alice") 100 "bob"
  = Return [message_out msg_yo (Some false)].
Proof.
  apply (X7_inbox_is_filtered_feed sample_db "alice" 0 100 "alice" "bob").
  - discriminate.
  - vm_compute. discriminate.
  - vm_compute. discriminate.
  - vm_compute. reflexivity.
Defined.

(** ** Sending, then polling *)






(** ** Polling the generic feed page by page *)






(** ** The routes, exactly *)

Lemma first_match_no_slash m path e :
  first_match routes m path = Some e → param_no_slash e.
Proof.
  unfold routes, first_match.
  destruct m; simpl;
    repeat match goal with
    | |- context [path_is ?t ?e' path] =>
        let H := fresh "H" in
        destruct (path_is t e' path) eqn:H;
        [apply path_is_Some in H as [? ->]; intros [= <-]; by simpl|]
    | |- context [path_param ?t ?e' path] =>
        let H := fresh "H" in
        destruct (path_param t e' path) eqn:H;
        [apply path_param_Some in H as (v & -> & _ & Hslash & ->);
         intros [= <-]; by simpl|]
    end; done.
Qed.

Lemma first_match_skip rs m' matcher m path :
  (if bool_decide (m' = m) then matcher path else None) = None →
  first_match ((m', matcher) :: rs) m path = first_match rs m path.
Proof. intros H. simpl. by rewrite H. Qed.

Lemma first_match_hit rs m matcher path e :
  matcher path = Some e →
  first_match ((m, matcher) :: rs) m path = Some e.
Proof. intros H. simpl. by rewrite bool_decide_eq_true_2, H. Qed.

(** X10. A request reaches a handler exactly when its method and path are
    those of the decorator: a literal path matches itself and itself
    followed by one line feed (the pattern of the route ends in [$]), and
    [/auth/{username}], [/participants/{to_user}] and
    [/participants/{username}] match the prefix followed by a value that is
    neither empty nor holds a [/], which is handed to the handler
    unchanged.  So a name that is empty or holds a [/] cannot be used to
    authenticate, to address a message or to read an inbox. *)
Theorem X10_routes_exact m path e :
  first_match routes m path = Some e ↔ route_of e m path ∧ param_no_slash e.
Proof.
  split.
  - intros H. split; [by apply first_match_routes | by eapply first_match_no_slash].
  - intros [Hroute Hslash].
    destruct e; simpl in Hroute, Hslash;
      try (destruct Hroute as [-> [-> | ->]]; reflexivity);
      destruct Hroute as (-> & -> & Hne); unfold routes;
      repeat (rewrite first_match_skip by reflexivity);
      by apply first_match_hit, path_param_app.
Qed.

(** ** Startup, entry by entry *)

Lemma bootstrap_loop_upserts db entries o db1 :
  bootstrap_loop db entries = (o, db1) →
  ∃ ups, db1 = set_users (upserts ups) db.
Proof.
  revert db. induction entries as [|entry entries IH]; intros db; simpl.
  - intros [= _ <-]. exists []. symmetry. by apply set_users_id.
  - destruct (bootstrap_entry db entry) as [e|db'] eqn:Hentry.
    + intros [= _ <-]. exists []. symmetry. by apply set_users_id.
    + intros (ups & ->)%IH.
      apply bootstrap_entry_upsert in Hentry
        as (members & n & c & _ & _ & _ & _ & _ & ->).
      by exists ((n, c, entry_is_human members) :: ups).
Qed.

Lemma upserts_lookup ups (U : gmap string user_row) k :
  upserts ups U !! k = foldl (upsert_at k) (U !! k) ups.
Proof.
  revert U. induction ups as [|[[n c] h] ups IH]; intros U; [done|].
  unfold upserts in *. simpl. by rewrite IH, lookup_upsert_at.
Qed.

Lemma upsert_at_Some k ex ups :
  foldl (upsert_at k) (Some ex) ups
  = Some {| user_codeword := last_codeword k (user_codeword ex) ups;
            user_is_human := user_is_human ex |}.
Proof.
  revert ex. induction ups as [|x ups IH]; intros ex; simpl.
  - by destruct ex.
  - unfold upsert_at at 2. unfold last_codeword. simpl.
    destruct (bool_decide (x.1.1 = k)); by rewrite IH.
Qed.

(** Startup is a sequence of upserts. *)
Lemma lifespan_upserts db loaded :
  ∃ ups, fst (lifespan db loaded) = set_users (upserts ups) db.
Proof.
  unfold lifespan. destruct (loaded ≫= py_iter) as [e|entries]; simpl.
  - exists []. symmetry. by apply set_users_id.
  - destruct (bootstrap_loop db entries) as [o db1] eqn:Hloop.
    apply bootstrap_loop_upserts in Hloop as [ups ->]. exists ups. by destruct o.
Qed.

(** X11. Startup, whatever the configuration, never removes a user and
    never changes the [is_human] flag of a user that is already stored (an
    UPDATE only sets the codeword), and it writes neither tokens nor
    messages. *)
Theorem X11_bootstrap_keeps_users db loaded :
  tokens (fst (lifespan db loaded)) = tokens db
  ∧ messages (fst (lifespan db loaded)) = messages db
  ∧ messages_message_id_seq (fst (lifespan db loaded)) = messages_message_id_seq db
  ∧ ∀ n u,
      users db !! n = Some u →
      ∃ u', users (fst (lifespan db loaded)) !! n = Some u'
            ∧ user_is_human u' = user_is_human u.
Proof.
  destruct (lifespan_upserts db loaded) as [ups ->]. repeat split.
  intros n u Hu. simpl. rewrite upserts_lookup, Hu, upsert_at_Some. eauto.
Qed.





(** A configuration whose first entry names a user with U+0000 stops
    there: the entry for bob is not applied. *)
Example bootstrap_stops_at_nul_username :
  lifespan empty_database
    (inr (JArray [JObject [("username", JString name_with_nul);
                           ("codeword", JString "x")];
                  entry_bob]))
  = (empty_database, [CharacterNotInRepertoireError]).
Proof. vm_compute. reflexivity. Qed.

(** ** Restarting with the same configuration *)

Lemma last_codeword_cons k d x ups :
  last_codeword k d (x :: ups)
  = last_codeword k (if bool_decide (x.1.1 = k) then x.1.2 else d) ups.
Proof. reflexivity. Qed.

(** Either no upsert names [k], or the last one that does decides. *)
Lemma last_codeword_cases k ups :
  (∀ d, last_codeword k d ups = d)
  ∨ (∀ d d', last_codeword k d ups = last_codeword k d' ups).
Proof.
  induction ups as [|x ups IH]; [by left|].
  destruct (bool_decide (x.1.1 = k)) eqn:Hx.
  - right. intros d d'. by rewrite !last_codeword_cons, Hx.
  - destruct IH as [IH|IH]; [left|right]; intros; rewrite !last_codeword_cons, Hx;
      apply IH.
Qed.

Lemma upsert_at_None k ups :
  foldl (upsert_at k) None ups = None
  ∨ ∃ ex, foldl (upsert_at k) None ups = Some ex
          ∧ ∀ d, last_codeword k d ups = user_codeword ex.
Proof.
  induction ups as [|x ups IH]; [by left|].
  change (foldl (upsert_at k) None (x :: ups))
    with (foldl (upsert_at k) (upsert_at k None x) ups).
  assert (Hstep : upsert_at k None x
                  = if bool_decide (x.1.1 = k)
                    then Some {| user_codeword := x.1.2; user_is_human := x.2 |}
                    else None) by reflexivity.
  rewrite Hstep. clear Hstep.
  destruct (bool_decide (x.1.1 = k)) eqn:Hx.
  - right. rewrite upsert_at_Some. eexists. split; [done|].
    intros d. by rewrite last_codeword_cons, Hx.
  - destruct IH as [IH|(ex & IH & Hc)]; [by left|right].
    exists ex. split; [done|]. intros d. by rewrite last_codeword_cons, Hx.
Qed.

(** Applying the upserts a second time changes nothing. *)
Lemma upsert_at_idem k o ups :
  foldl (upsert_at k) (foldl (upsert_at k) o ups) ups = foldl (upsert_at k) o ups.
Proof.
  destruct o as [ex|].
  - rewrite !upsert_at_Some. simpl.
    destruct (last_codeword_cases k ups) as [H|H]; [by rewrite !H|].
    by rewrite (H _ (user_codeword ex)).
  - destruct (upsert_at_None k ups) as [H|(ex & -> & Hc)].
    + rewrite H. exact H.
    + rewrite upsert_at_Some, Hc. by destruct ex.
Qed.

Lemma upserts_idem ups (U : gmap string user_row) :
  upserts ups (upserts ups U) = upserts ups U.
Proof. apply map_eq. intros k. by rewrite !upserts_lookup, upsert_at_idem. Qed.

(** An entry whose user is stored is an upsert, whatever the stored
    codeword and whatever its [is_human]. *)
Lemma bootstrap_entry_stored db members n c h ex :
  dict_get members "username" = Some (JString n) →
  dict_get members "codeword" = Some (JString c) →
  has_nul n = false → has_nul c = false →
  users db !! n = Some ex →
  bootstrap_entry db (JObject members) = inr (set_users (upsert n c h) db).
Proof.
  intros Hn Hc Hnul Hcnul Hex. unfold bootstrap_entry. simpl. rewrite Hn, Hc. simpl.
  rewrite Hnul. simpl. rewrite Hex. simpl. rewrite Hcnul. simpl.
  destruct (String.eqb_spec (user_codeword ex) c) as [Heq|Hne]; simpl; f_equal.
  - symmetry. apply set_users_id. unfold upsert. rewrite Hex.
    apply insert_id. rewrite Hex. f_equal. destruct ex. simpl in *. by subst.
  - unfold set_users, upsert. by rewrite Hex.
Qed.

(** Whether an entry raises, and what, depends on the stored usernames
    only. *)
Lemma bootstrap_entry_raises db db' entry e :
  (∀ k, is_Some (users db !! k) ↔ is_Some (users db' !! k)) →
  bootstrap_entry db entry = inl e → bootstrap_entry db' entry = inl e.
Proof.
  intros Hdom. unfold bootstrap_entry.
  destruct entry as [| | | | |members]; try done. simpl.
  destruct (dict_get members "username") as [vn|]; simpl; [|done].
  destruct (dict_get members "codeword") as [vc|]; simpl; [|done].
  destruct vn as [| | |n| |]; simpl; try done.
  destruct (has_nul n); simpl; [done|].
  pose proof (Hdom n) as Hn.
  destruct (users db !! n) as [ex|], (users db' !! n) as [ex'|]; simpl.
  - destruct vc as [| | |c| |]; simpl; try done.
    destruct (has_nul c); simpl; [done|].
    by destruct (negb (String.eqb (user_codeword ex) c)).
  - by destruct (proj1 Hn (mk_is_Some _ _ eq_refl)).
  - by destruct (proj2 Hn (mk_is_Some _ _ eq_refl)).
  - destruct (text_param vc) as [?|oc]; simpl; [done|].
    destruct (bool_param _); simpl; [done|].
    by destruct (server_text oc) as [?|[?|]].
Qed.

Lemma upsert_is_Some n c h (U : gmap string user_row) k :
  is_Some (U !! n) → is_Some (upsert n c h U !! k) ↔ is_Some (U !! k).
Proof.
  intros Hn. destruct (decide (n = k)) as [->|Hne].
  - rewrite lookup_upsert_eq. split; eauto.
  - by rewrite lookup_upsert_ne.
Qed.

(** The loop run again on a database that stores the usernames of its
    result does the same upserts and raises the same exception. *)
Lemma bootstrap_loop_replay entries db o db1 db' :
  bootstrap_loop db entries = (o, db1) →
  (∀ k, is_Some (users db1 !! k) ↔ is_Some (users db' !! k)) →
  ∃ ups, db1 = set_users (upserts ups) db
         ∧ bootstrap_loop db' entries = (o, set_users (upserts ups) db').
Proof.
  revert db db'. induction entries as [|entry entries IH]; intros db db'; simpl.
  - intros [= <- <-] _. exists []. split; symmetry; f_equal; by apply set_users_id.
  - destruct (bootstrap_entry db entry) as [e|db2] eqn:Hentry.
    + intros [= <- <-] Hdom. exists [].
      rewrite (bootstrap_entry_raises db db' entry e Hdom Hentry).
      split; symmetry; f_equal; by apply set_users_id.
    + intros Hloop Hdom.
      destruct (bootstrap_entry_upsert _ _ _ Hentry)
        as (members & n & c & -> & Hn & Hc & Hnul & Hcnul & ->).
      destruct (bootstrap_loop_users _ _ _ _ Hloop) as (_ & _ & Hmono & _).
      assert (Hex : is_Some (users db' !! n)).
      { apply Hdom, Hmono. simpl. rewrite lookup_upsert_eq. eauto. }
      destruct Hex as [ex Hex].
      rewrite (bootstrap_entry_stored db' members n c (entry_is_human members) ex)
        by done.
      destruct (IH _ (set_users (upsert n c (entry_is_human members)) db') Hloop)
        as (ups & -> & ->).
      { intros k. rewrite Hdom. simpl. symmetry. apply upsert_is_Some. eauto. }
      by exists ((n, c, entry_is_human members) :: ups).
Qed.

(** X13. Startup is idempotent: run again with the same configuration on
    the database it produced (a restart of the server), it leaves that
    database unchanged and prints the same exception, if any. *)
Theorem X13_bootstrap_idempotent db loaded :
  lifespan (fst (lifespan db loaded)) loaded = lifespan db loaded.
Proof.
  transitivity (fst (lifespan db loaded), snd (lifespan db loaded));
    [|by destruct (lifespan db loaded)].
  unfold lifespan. destruct (loaded ≫= py_iter) as [e|entries]; [done|].
  destruct (bootstrap_loop db entries) as [o db1] eqn:Hloop.
  assert (Hagain : bootstrap_loop db1 entries = (o, db1)).
  { destruct (bootstrap_loop_replay entries db o db1 db1 Hloop) as (ups & Hdb1 & ->);
      [done|].
    f_equal. rewrite Hdb1 at 2. rewrite Hdb1. unfold set_users. simpl.
    by rewrite upserts_idem. }
  destruct o; simpl; by rewrite Hagain.
Qed.

(** ** A send changes one feed only *)

Lemma select_messages_frame db db' cond :
  users db' = users db →
  (messages db' = messages db
   ∨ ∃ m, messages db' = messages db ++ [m] ∧ cond m = false) →
  select_messages db' cond = select_messages db cond.
Proof.
  intros Hu Hm. unfold select_messages. f_equal.
  assert (Hfilter : List.filter cond (messages db') = List.filter cond (messages db)).
  { destruct Hm as [->|(m & -> & Hc)]; [done|].
    rewrite List.filter_app. simpl. by rewrite Hc, app_nil_r. }
  rewrite Hfilter. apply flat_map_ext. intros m. unfold join_users. by rewrite Hu.
Qed.

(** X14. A send touches one feed only.  Whatever the request, after
    POST /participants every inbox query returns what it returned before;
    after POST /participants/{to_user} the broadcast query (for a non-empty
    [to_user]) and the inbox query of every other username return what they
    returned before. *)
Theorem X14_send_changes_one_feed db env req from_id :
  (∀ v, query_direct (snd (call_endpoint db env req ep_send_broadcast)) from_id v
        = query_direct db from_id v)
  ∧ (∀ to_user,
       to_user ≠ EmptyString →
       query_broadcast (snd (call_endpoint db env req (ep_send_direct to_user))) from_id
       = query_broadcast db from_id)
  ∧ (∀ to_user v,
       v ≠ to_user →
       query_direct (snd (call_endpoint db env req (ep_send_direct to_user))) from_id v
       = query_direct db from_id v).
Proof.
  assert (Hcases : ∀ e,
            users (snd (call_endpoint db env req e)) = users db
            ∧ (messages (snd (call_endpoint db env req e)) = messages db
               ∨ ∃ m, messages (snd (call_endpoint db env req e)) = messages db ++ [m]
                      ∧ reply_to_username m
                        = match e with
                          | ep_send_direct to_user => Some to_user
                          | _ => None
                          end)).
  { intros e. split; [apply call_endpoint_step|].
    destruct (call_endpoint db env req e) as [o db'] eqn:Hcall.
    destruct (call_endpoint_messages _ _ _ _ _ _ Hcall) as [?|(m & ? & ? & _)];
      [by left|right]. by exists m. }
  split; [|split].
  - intros v. destruct (Hcases ep_send_broadcast) as [Hu Hm].
    apply select_messages_frame; [done|].
    destruct Hm as [?|(m & ? & Hto)]; [by left|right]. exists m. split; [done|].
    unfold cond_reply_to_username_eq. rewrite bool_decide_eq_false_2, andb_false_r;
      [done|congruence].
  - intros to_user Hne. destruct (Hcases (ep_send_direct to_user)) as [Hu Hm].
    apply select_messages_frame; [done|].
    destruct Hm as [?|(m & ? & Hto)]; [by left|right]. exists m. split; [done|].
    unfold cond_reply_to_username_null_or_empty.
    rewrite !bool_decide_eq_false_2, andb_false_r; [done|congruence..].
  - intros to_user v Hne. destruct (Hcases (ep_send_direct to_user)) as [Hu Hm].
    apply select_messages_frame; [done|].
    destruct Hm as [?|(m & ? & Hto)]; [by left|right]. exists m. split; [done|].
    unfold cond_reply_to_username_eq. rewrite bool_decide_eq_false_2, andb_false_r;
      [done|congruence].
Qed.
